(** * drone-passwordstate: the plugin's pipeline, embedded and verified

    A shallow embedding of [plugin/plugin.go]: configuration validation,
    the PasswordState query, the projection of records onto secrets and
    the YAML writer, with the properties of the specification proved (or
    refuted) on it.

    Conventions.
    - A Go [string] is a byte sequence: Rocq's [string].
    - A Go [int] is modelled as [Z] (no arithmetic is done on it).
    - A Go [error] value is [option error], [None] being [nil].
    - A Go map literal is a [gmap].
    - The state threaded through the code is the [World]: the file
      system and the list of the requests handed to the HTTP client so
      far (what the client transmits for one of them, its retries
      included, is inside [Get]).
    - The [logrus] calls only feed the logging sink, which the
      specification places outside the design; they are not part of the
      state. *)

From Stdlib Require Import ZArith NArith Ascii String List Bool Lia.
From Stdlib Require Import DecimalString DecimalZ.
From stdpp Require Import base gmap strings list.
Import ListNotations.

Local Open Scope Z_scope.

(** ** Library functions of Go used by the plugin *)

Module strings.

(** [strings.IndexByte(cutset, c) >= 0] for a cutset of ASCII bytes. *)
Fixpoint inCutset (cutset : string) (c : ascii) : bool :=
  match cutset with
  | EmptyString => false
  | String d rest => if Ascii.eqb c d then true else inCutset rest c
  end.

(** [strings.TrimLeft(s, cutset)]: drop the leading bytes of [s] that
    belong to [cutset].  The cut sets of the plugin ([" "] and ["/"])
    are ASCII, for which trimming code points and trimming bytes
    agree. *)
Fixpoint TrimLeft (s cutset : string) : string :=
  match s with
  | EmptyString => EmptyString
  | String c rest => if inCutset cutset c then TrimLeft rest cutset else s
  end.

(** [strings.TrimRight(s, cutset)]: drop the trailing bytes of [s]
    that belong to [cutset]. *)
Fixpoint TrimRight (s cutset : string) : string :=
  match s with
  | EmptyString => EmptyString
  | String c rest =>
      match TrimRight rest cutset with
      | EmptyString => if inCutset cutset c then EmptyString
                       else String c EmptyString
      | kept => String c kept
      end
  end.

(** [strings.Trim(s, cutset)]. *)
Definition Trim (s cutset : string) : string :=
  TrimRight (TrimLeft s cutset) cutset.

End strings.

Module strconv.

(** [strconv.Itoa]: the decimal numeral of an integer, with a leading
    minus sign for a negative one. *)
Definition Itoa (i : Z) : string := NilZero.string_of_int (Z.to_int i).

(** The inverse reading, used to state that [Itoa] loses nothing. *)
Definition Atoi (s : string) : option Z :=
  option_map Z.of_int (NilZero.int_of_string s).

End strconv.

Module base64.

(** The alphabet of [base64.StdEncoding]. *)
Definition encodeStd : string :=
  "ABCDEFGHIJKLMNOPQRSTUVWXYZabcdefghijklmnopqrstuvwxyz0123456789+/".

Definition StdPadding : ascii := "="%char.

(** [enc.encode[v & 0x3F]]. *)
Definition encode (v : N) : ascii :=
  match String.get (N.to_nat (N.land v 63)) encodeStd with
  | Some c => c
  | None => StdPadding
  end.

(** [Encoding.Encode] of the standard, padded encoding: three source
    bytes give four characters; a remainder of one or two bytes gives
    two or three characters and the padding. *)
Fixpoint Encode (src : list N) : string :=
  match src with
  | [] => EmptyString
  | [b0] =>
      let val := N.shiftl b0 16 in
      String (encode (N.shiftr val 18))
        (String (encode (N.shiftr val 12))
           (String StdPadding (String StdPadding EmptyString)))
  | [b0; b1] =>
      let val := N.lor (N.shiftl b0 16) (N.shiftl b1 8) in
      String (encode (N.shiftr val 18))
        (String (encode (N.shiftr val 12))
           (String (encode (N.shiftr val 6))
              (String StdPadding EmptyString)))
  | b0 :: b1 :: b2 :: rest =>
      let val := N.lor (N.lor (N.shiftl b0 16) (N.shiftl b1 8)) b2 in
      String (encode (N.shiftr val 18))
        (String (encode (N.shiftr val 12))
           (String (encode (N.shiftr val 6))
              (String (encode val) (Encode rest))))
  end.

(** [[]byte(s)]. *)
Fixpoint bytes (s : string) : list N :=
  match s with
  | EmptyString => []
  | String c rest => N_of_ascii c :: bytes rest
  end.

(** [base64.StdEncoding.EncodeToString([]byte(s))]. *)
Definition EncodeToString (s : string) : string := Encode (bytes s).

End base64.

(** ** The data model of [plugin.go] *)

(** The error values the plugin returns or passes on. *)
Inductive error : Type :=
  | errorString (text : string)          (* [errors.New(text)] *)
  | url_Error (Op URL Err : string)      (* [*url.Error] of [net/url] *)
  | resty_Error (text : string)          (* whatever [resty]'s [Get] returns *)
  | PathError (Op Path Err : string).    (* [*os.PathError] *)

(** Plugin configuration. *)
Record Config : Type := {
  ApiEndpoint : string;
  ApiKey : string;
  PasswordListId : Z;
  ConnectionRetries : Z;
  ConnectionTimeout : Z;
  SkipTlsVerify : bool;
  KeyField : string;
  ValueField : string;
  EncodeSecrets : bool;
  OutputPath : string;
  OutputFormat : string;
  SectionName : string;
  Debug : bool;
  NoSecretsFail : bool
}.

(** Plugin parameters.  The Go field is called [Config], as its type. *)
Record Plugin : Type := { Plugin_Config : Config }.

(** KV Secret. *)
Record Secret : Type := { Key : string; Value : string }.

(** PasswordState JSON response for the passwords. *)
Record PasswordList : Type := {
  PasswordID : Z;
  Title : string;
  UserName : string;
  Description : string;
  GenericField1 : string;
  GenericField2 : string;
  GenericField3 : string;
  GenericField4 : string;
  GenericField5 : string;
  GenericField6 : string;
  GenericField7 : string;
  GenericField8 : string;
  GenericField9 : string;
  GenericField10 : string;
  AccountTypeID : Z;
  Notes : string;
  URL : string;
  Password : string;
  ExpiryDate : string;
  AllowExport : bool;
  AccountType : string
}.

(** The zero value of [PasswordList]: what JSON decoding leaves in the
    fields an array element does not mention. *)
Definition zeroPasswordList : PasswordList :=
  {| PasswordID := 0; Title := ""; UserName := ""; Description := "";
     GenericField1 := ""; GenericField2 := ""; GenericField3 := "";
     GenericField4 := ""; GenericField5 := ""; GenericField6 := "";
     GenericField7 := ""; GenericField8 := ""; GenericField9 := "";
     GenericField10 := ""; AccountTypeID := 0; Notes := ""; URL := "";
     Password := ""; ExpiryDate := ""; AllowExport := false;
     AccountType := "" |}.

(** ** Reflection on a [PasswordList] *)

Module reflect.

(** A [reflect.Value] obtained from a field of [PasswordList]: the
    invalid (zero) [Value], or a value of kind string, int or bool. *)
Inductive Value : Type :=
  | Invalid
  | OfString (s : string)
  | OfInt (i : Z)
  | OfBool (b : bool).

(** [reflect.Indirect(reflect.ValueOf(password)).FieldByName(name)]:
    the field whose name is exactly [name], the zero [Value] when the
    struct has none. *)
Definition FieldByName (password : PasswordList) (name : string) : Value :=
  if String.eqb name "PasswordID" then OfInt (PasswordID password)
  else if String.eqb name "Title" then OfString (Title password)
  else if String.eqb name "UserName" then OfString (UserName password)
  else if String.eqb name "Description" then OfString (Description password)
  else if String.eqb name "GenericField1" then OfString (GenericField1 password)
  else if String.eqb name "GenericField2" then OfString (GenericField2 password)
  else if String.eqb name "GenericField3" then OfString (GenericField3 password)
  else if String.eqb name "GenericField4" then OfString (GenericField4 password)
  else if String.eqb name "GenericField5" then OfString (GenericField5 password)
  else if String.eqb name "GenericField6" then OfString (GenericField6 password)
  else if String.eqb name "GenericField7" then OfString (GenericField7 password)
  else if String.eqb name "GenericField8" then OfString (GenericField8 password)
  else if String.eqb name "GenericField9" then OfString (GenericField9 password)
  else if String.eqb name "GenericField10" then OfString (GenericField10 password)
  else if String.eqb name "AccountTypeID" then OfInt (AccountTypeID password)
  else if String.eqb name "Notes" then OfString (Notes password)
  else if String.eqb name "URL" then OfString (URL password)
  else if String.eqb name "Password" then OfString (Password password)
  else if String.eqb name "ExpiryDate" then OfString (ExpiryDate password)
  else if String.eqb name "AllowExport" then OfBool (AllowExport password)
  else if String.eqb name "AccountType" then OfString (AccountType password)
  else Invalid.

(** [Value.String()]: the string of a string value; for any other
    kind a placeholder naming the type, never a panic. *)
Definition String (v : Value) : string :=
  match v with
  | Invalid => "<invalid Value>"
  | OfString s => s
  | OfInt _ => "<int Value>"
  | OfBool _ => "<bool Value>"
  end.

End reflect.

(** ** The world: HTTP requests and files *)

(** The request [resty] is asked to send: the client settings of
    [getSecrets] and the URL handed to [Get]. *)
Record Request : Type := {
  Method : string;
  RequestURL : string;
  RetryCount : Z;
  Timeout : Z;                          (* a [time.Duration], nanoseconds *)
  ClientDebug : bool;
  TLSClientConfig : option bool;        (* [InsecureSkipVerify], when set *)
  QueryParams : gmap string string;
  PathParams : gmap string string;
  Headers : gmap string string
}.

(** What [Get] hands back: the decoded result, or an error. *)
Inductive Response : Type :=
  | Result (passwords : list PasswordList)
  | GetFailed (err : error).

(** A path of the file system: a regular file with its content, or a
    path [os.OpenFile] cannot open for writing (a directory, a file
    without write permission, a path below a missing directory). *)
Inductive node : Type :=
  | Regular (content : string)
  | Unopenable (err : error).

Record World : Type := {
  files : gmap string node;
  requests : list Request
}.

(** 64-bit two's complement wrap-around, for [time.Duration] products. *)
Definition wrap64 (z : Z) : Z := (z + 2 ^ 63) mod 2 ^ 64 - 2 ^ 63.

Definition Second : Z := 1000000000.

Module os.

(** An open [*os.File]: its path and the offset of the next write. *)
Record File : Type := { name : string; offset : nat }.

(** [s[n:]], empty when [s] is shorter. *)
Fixpoint skip (n : nat) (s : string) : string :=
  match n, s with
  | O, _ => s
  | S _, EmptyString => EmptyString
  | S n', String _ rest => skip n' rest
  end.

(** The content of a file after [data] is written at offset [off]:
    the bytes under the data are replaced, the bytes after it stay,
    the file grows when the data runs past its end (a gap before the
    offset reads as zero bytes). *)
Fixpoint writeAt (content : string) (off : nat) (data : string) : string :=
  match off with
  | O => data +:+ skip (String.length data) content
  | S off' =>
      match content with
      | EmptyString => String Ascii.zero (writeAt EmptyString off' data)
      | String c rest => String c (writeAt rest off' data)
      end
  end.

(** [os.OpenFile(name, os.O_WRONLY|os.O_CREATE, 0644)]: an existing
    file is opened as it is, at offset 0 (the flags carry neither
    [O_TRUNC] nor [O_APPEND]); a missing file is created empty. *)
Definition OpenFile (filename : string) (w : World) : World * (File + error) :=
  match files w !! filename with
  | None =>
      ({| files := <[filename := Regular ""]> (files w);
          requests := requests w |},
       inl {| name := filename; offset := O |})
  | Some (Regular _) => (w, inl {| name := filename; offset := O |})
  | Some (Unopenable err) => (w, inr err)
  end.

(** [f.WriteString(s)]: write at the file's offset and advance it.
    The results [(n, err)] are returned by Go and dropped by every
    caller in the plugin, so only the effect is kept. *)
Definition WriteString (f : File) (s : string) (w : World) : World * File :=
  match files w !! name f with
  | Some (Regular content) =>
      ({| files := <[name f := Regular (writeAt content (offset f) s)]> (files w);
          requests := requests w |},
       {| name := name f; offset := (offset f + String.length s)%nat |})
  | _ => (w, f)
  end.

End os.

(** ** [net/url]: the check of a request URI *)

(** [url.ParseRequestURI] of the Go release the repository builds with
    (its pipeline pins [golang:1.10.3]), as far as its error goes: the
    [*URL] it returns is dropped by [Exec].  The checks of the user
    information and of the host ([parseAuthority]) and the quoting of a
    malformed escape in the error text ([strconv.Quote]) are taken as
    given. *)
Module url.

Section Parser.

(** [parseAuthority(authority)]: the text of its error, if any. *)
Variable parseAuthority : string -> option string.

(** [strconv.Quote]. *)
Variable Quote : string -> string.

(** ['a' <= c && c <= 'z' || 'A' <= c && c <= 'Z']. *)
Definition isLetter (c : ascii) : bool :=
  ((97 <=? N_of_ascii c) && (N_of_ascii c <=? 122)
   || (65 <=? N_of_ascii c) && (N_of_ascii c <=? 90))%N.

(** ['0' <= c && c <= '9' || c == '+' || c == '-' || c == '.']. *)
Definition isSchemeMark (c : ascii) : bool :=
  ((48 <=? N_of_ascii c) && (N_of_ascii c <=? 57))%N
  || Ascii.eqb c "+" || Ascii.eqb c "-" || Ascii.eqb c ".".

(** [ishex]. *)
Definition ishex (c : ascii) : bool :=
  ((48 <=? N_of_ascii c) && (N_of_ascii c <=? 57)
   || (97 <=? N_of_ascii c) && (N_of_ascii c <=? 102)
   || (65 <=? N_of_ascii c) && (N_of_ascii c <=? 70))%N.

(** The loop of [getscheme] at index [i], with [seen = rawurl[:i]] and
    [rest = rawurl[i:]]; the test [i == 0] is the test that [seen] is
    empty.  The result is the scheme and the rest, or the text of the
    error. *)
Fixpoint getschemeLoop (rawurl seen rest : string) : string * string + string :=
  match rest with
  | EmptyString => inl (EmptyString, rawurl)
  | String c rest' =>
      if isLetter c then getschemeLoop rawurl (seen +:+ String c "") rest'
      else if isSchemeMark c then
        if String.eqb seen "" then inl (EmptyString, rawurl)
        else getschemeLoop rawurl (seen +:+ String c "") rest'
      else if Ascii.eqb c ":" then
        if String.eqb seen "" then inr "missing protocol scheme"
        else inl (seen, rest')
      else inl (EmptyString, rawurl)
  end.

(** [getscheme(rawurl)]. *)
Definition getscheme (rawurl : string) : string * string + string :=
  getschemeLoop rawurl "" rawurl.

(** [strings.HasPrefix(s, prefix)]. *)
Fixpoint HasPrefix (s prefix : string) : bool :=
  match prefix, s with
  | EmptyString, _ => true
  | String _ _, EmptyString => false
  | String p prefix', String c s' => Ascii.eqb c p && HasPrefix s' prefix'
  end.

(** [strings.HasSuffix(s, suffix)] for a suffix of one byte. *)
Fixpoint HasSuffix (s : string) (suffix : ascii) : bool :=
  match s with
  | EmptyString => false
  | String c EmptyString => Ascii.eqb c suffix
  | String _ s' => HasSuffix s' suffix
  end.

(** [strings.Count(s, sep)] for a separator of one byte. *)
Fixpoint Count (s : string) (sep : ascii) : nat :=
  match s with
  | EmptyString => O
  | String c s' => if Ascii.eqb c sep then S (Count s' sep) else Count s' sep
  end.

(** [s[:len(s)-1]]. *)
Fixpoint dropLast (s : string) : string :=
  match s with
  | EmptyString => EmptyString
  | String _ EmptyString => EmptyString
  | String c s' => String c (dropLast s')
  end.

(** [split(s, c, cutc)] for a separator of one byte: [s] cut at the
    first [c], which goes to neither part when [cutc] is set and to the
    second part otherwise; [(s, "")] when [c] does not occur. *)
Fixpoint split (s : string) (c : ascii) (cutc : bool) : string * string :=
  match s with
  | EmptyString => (EmptyString, EmptyString)
  | String x s' =>
      if Ascii.eqb x c then (EmptyString, if cutc then s' else s)
      else let (before, after) := split s' c cutc in (String x before, after)
  end.

(** [s[:3]], or [s] when it is shorter. *)
Definition first3 (s : string) : string := String.substring 0 3 s.

(** The first loop of [unescape(s, encodePath)]: the malformed escape
    it stops at, if any (a [%] that two hexadecimal digits do not
    follow). *)
Fixpoint malformedEscape (s : string) : option string :=
  match s with
  | EmptyString => None
  | String c rest =>
      if Ascii.eqb c "%" then
        match rest with
        | String a (String b rest') =>
            if ishex a && ishex b then malformedEscape rest'
            else Some (first3 s)
        | _ => Some (first3 s)
        end
      else malformedEscape rest
  end.

(** [url.setPath(p)]: it fails when [unescape(p, encodePath)] does. *)
Definition setPath (p : string) : option string :=
  match malformedEscape p with
  | Some bad => Some ("invalid URL escape " +:+ Quote bad)
  | None => None
  end.

(** [parse(rawurl, true)]: the text of its error, if any. *)
Definition parse (rawurl : string) : option string :=
  if String.eqb rawurl "" then Some "empty url"
  else if String.eqb rawurl "*" then None
  else
    match getscheme rawurl with
    | inr err => Some err
    | inl (scheme, rest) =>
        let rest :=
          if HasSuffix rest "?" && (Count rest "?" =? 1)%nat
          then dropLast rest
          else fst (split rest "?" true) in
        if negb (HasPrefix rest "/") then
          if negb (String.eqb scheme "") then None
          else Some "invalid URI for request"
        else if negb (String.eqb scheme "") && HasPrefix rest "//" then
          let (authority, rest') := split (os.skip 2 rest) "/" false in
          match parseAuthority authority with
          | Some err => Some err
          | None => setPath rest'
          end
        else setPath rest
    end.

(** [url.ParseRequestURI(rawurl)]: the error of [parse], wrapped. *)
Definition ParseRequestURI (rawurl : string) : option error :=
  match parse rawurl with
  | Some err => Some (url_Error "parse" rawurl err)
  | None => None
  end.

End Parser.

End url.

(** The line feed of the Go literals ["\n"]. *)
Definition LF : string := String "010"%char EmptyString.

(** The horizontal tab. *)
Definition TAB : string := String "009"%char EmptyString.

(** ** Instances used by the examples *)

(** A stand-in for [url.ParseRequestURI] on the endpoints of the
    examples: the empty endpoint is refused as Go refuses it, the
    endpoint of the specification's example is accepted. *)
Definition exampleParseRequestURI (rawurl : string) : option error :=
  if String.eqb rawurl "https://ps.example.com" then None
  else if String.eqb rawurl "" then Some (url_Error "parse" "" "empty url")
  else Some (url_Error "parse" rawurl "invalid URI for request").

(** A PasswordState server that answers every request with [passwords]. *)
Definition serverOf (passwords : list PasswordList) (_ : Request) : Response :=
  Result passwords.

(** A PasswordState server that cannot be reached: every [Get] fails
    with [err]. *)
Definition unreachable (err : error) (_ : Request) : Response :=
  GetFailed err.

(** The configuration of the specification's example. *)
Definition exampleConfig (encode noSecretsFail : bool) : Config :=
  {| ApiEndpoint := "https://ps.example.com"; ApiKey := "k";
     PasswordListId := 42; ConnectionRetries := 0; ConnectionTimeout := 30;
     SkipTlsVerify := false; KeyField := "Title"; ValueField := "Password";
     EncodeSecrets := encode; OutputPath := "secrets.yml";
     OutputFormat := "YAML"; SectionName := "secrets"; Debug := false;
     NoSecretsFail := noSecretsFail |}.

(** The same with another endpoint, list identifier and field names. *)
Definition configOf (endpoint : string) (listId : Z)
    (keyField valueField : string) : Config :=
  {| ApiEndpoint := endpoint; ApiKey := "k";
     PasswordListId := listId; ConnectionRetries := 0; ConnectionTimeout := 30;
     SkipTlsVerify := false; KeyField := keyField; ValueField := valueField;
     EncodeSecrets := false; OutputPath := "secrets.yml";
     OutputFormat := "YAML"; SectionName := "secrets"; Debug := false;
     NoSecretsFail := false |}.

(** The same with the values encoded. *)
Definition encodedConfigOf (endpoint : string) (listId : Z)
    (keyField valueField : string) : Config :=
  {| ApiEndpoint := endpoint; ApiKey := "k";
     PasswordListId := listId; ConnectionRetries := 0; ConnectionTimeout := 30;
     SkipTlsVerify := false; KeyField := keyField; ValueField := valueField;
     EncodeSecrets := true; OutputPath := "secrets.yml";
     OutputFormat := "YAML"; SectionName := "secrets"; Debug := false;
     NoSecretsFail := false |}.

(** A record with the given title and password, all else zero. *)
Definition titled (title password : string) : PasswordList :=
  {| PasswordID := 0; Title := title; UserName := ""; Description := "";
     GenericField1 := ""; GenericField2 := ""; GenericField3 := "";
     GenericField4 := ""; GenericField5 := ""; GenericField6 := "";
     GenericField7 := ""; GenericField8 := ""; GenericField9 := "";
     GenericField10 := ""; AccountTypeID := 0; Notes := ""; URL := "";
     Password := password; ExpiryDate := ""; AllowExport := false;
     AccountType := "" |}.

(** The API response of the specification's example. *)
Definition exampleRecords : list PasswordList :=
  [titled "db" "p@ss"; titled "" "x"].

(** A world without files in which nothing was sent. *)
Definition emptyWorld : World := {| files := ∅; requests := [] |}.

(** A world whose only path is [filename]. *)
Definition worldWith (filename : string) (n : node) : World :=
  {| files := {[ filename := n ]}; requests := [] |}.

(** ** The plugin *)

Section Pipeline.

(** [url.ParseRequestURI], of which [Exec] keeps the error only. *)
Variable ParseRequestURI : string -> option error.

(** [client.R().SetResult([]PasswordList{}).Get(url)]: the transport,
    its retries and the JSON decoding, as a function of the request. *)
Variable Get : Request -> Response.

(** The body of the loop of [getSecrets] over the passwords: a record
    whose key or value is empty or invalid is skipped ([continue]), any
    other appends its secret. *)
Definition convert (keyField valueField : string)
    (secrets : list Secret) (password : PasswordList) : list Secret :=
  let key := reflect.String (reflect.FieldByName password keyField) in
  if String.eqb key "" || String.eqb key "<invalid Value>" then secrets
  else
    let value := reflect.String (reflect.FieldByName password valueField) in
    if String.eqb value "" || String.eqb value "<invalid Value>" then secrets
    else secrets ++ [ {| Key := key; Value := value |} ].

(** The request [getSecrets] configures and sends. *)
Definition request (c : Config) : Request :=
  {| Method := "GET";
     RequestURL := strings.TrimRight (ApiEndpoint c) "/"
                   +:+ "/passwords/{PasswordListID}";
     RetryCount := ConnectionRetries c;
     Timeout := wrap64 (ConnectionTimeout c * Second);
     ClientDebug := Debug c;
     TLSClientConfig := if SkipTlsVerify c then Some (SkipTlsVerify c) else None;
     QueryParams := {[ "QueryAll" := "true"; "PreventAuditing" := "false" ]};
     PathParams := {[ "PasswordListID" := strconv.Itoa (PasswordListId c) ]};
     Headers := {[ "APIKey" := ApiKey c; "Content-Type" := "application/json" ]} |}.

(** Retrieves the secrets from PasswordState. *)
Definition getSecrets (p : Plugin) (w : World) : World * (list Secret + error) :=
  let c := Plugin_Config p in
  let req := request c in
  let w' := {| files := files w; requests := requests w ++ [req] |} in
  match Get req with
  | GetFailed err => (w', inr err)
  | Result passwords =>
      (w', inl (fold_left (convert (KeyField c) (ValueField c)) passwords []))
  end.

(** [fmt.Sprintf("---\n%s:\n", section)]. *)
Definition header (section : string) : string :=
  "---" +:+ LF +:+ section +:+ ":" +:+ LF.

(** [fmt.Sprintf("  %s: '%s'\n", key, value)]. *)
Definition line (key value : string) : string :=
  "  " +:+ key +:+ ": '" +:+ value +:+ "'" +:+ LF.

(** The line [outputToYaml] formats for one secret: key and value
    trimmed with the cut set [" "], the value encoded if asked for. *)
Definition secretLine (encode : bool) (secret : Secret) : string :=
  let key := strings.Trim (Key secret) " " in
  let value := strings.Trim (Value secret) " " in
  let value := if encode then base64.EncodeToString value else value in
  line key value.

(** The body of the loop of [outputToYaml] over the secrets. *)
Definition save (encode : bool) (st : World * os.File) (secret : Secret)
    : World * os.File :=
  os.WriteString (snd st) (secretLine encode secret) (fst st).

(** Saves the secrets to YAML file.  The deferred [f.Close()] changes
    neither the content of the file nor the result. *)
Definition outputToYaml (filename section : string) (encode : bool)
    (secrets : list Secret) (w : World) : World * option error :=
  match os.OpenFile filename w with
  | (w0, inr err) => (w0, Some err)
  | (w0, inl f) =>
      let st := os.WriteString f (header section) w0 in
      (fst (fold_left (save encode) secrets st), None)
  end.

(** The parameter validation at the head of [Exec]. *)
Definition validate (c : Config) : option error :=
  match ParseRequestURI (ApiEndpoint c) with
  | Some err => Some err
  | None =>
      if PasswordListId c =? 0
      then Some (errorString "provided list ID is not valid")
      else if String.eqb (ApiKey c) ""
      then Some (errorString "api key is mandatory")
      else if negb (String.eqb (OutputFormat c) "YAML")
      then Some (errorString "currently only YAML format is supported")
      else None
  end.

(** Handles the plugin execution. *)
Definition Exec (p : Plugin) (w : World) : World * option error :=
  let c := Plugin_Config p in
  match validate c with
  | Some err => (w, Some err)
  | None =>
      match getSecrets p w with
      | (w1, inr err) => (w1, Some err)
      | (w1, inl secrets) =>
          if NoSecretsFail c && (length secrets =? 0)%nat
          then (w1, Some (errorString "no secrets were retrieved from PasswordState"))
          else
            (* the result of [outputToYaml] is not looked at *)
            let w2 :=
              if String.eqb (OutputFormat c) "YAML"
              then fst (outputToYaml (OutputPath c) (SectionName c)
                          (EncodeSecrets c) secrets w1)
              else w1 in
            (w2, None)
      end
  end.

End Pipeline.

(** ** Notions used to state the properties *)

(** The lines of the secrets, one after the other. *)
Fixpoint secretLines (encode : bool) (secrets : list Secret) : string :=
  match secrets with
  | [] => EmptyString
  | secret :: rest => secretLine encode secret +:+ secretLines encode rest
  end.

(** The text [outputToYaml] writes: the header, then the secrets' lines. *)
Definition document (section : string) (encode : bool) (secrets : list Secret)
    : string :=
  header section +:+ secretLines encode secrets.

(** The content of [filename] before a run, empty when there is none. *)
Definition prior (w : World) (filename : string) : string :=
  match files w !! filename with
  | Some (Regular content) => content
  | _ => ""
  end.

(** [filename] can be opened for writing. *)
Definition openable (w : World) (filename : string) : bool :=
  match files w !! filename with
  | Some (Unopenable _) => false
  | _ => true
  end.

(** [filename] does not exist yet, or is an empty file. *)
Definition fresh (w : World) (filename : string) : bool :=
  match files w !! filename with
  | None | Some (Regular EmptyString) => true
  | _ => false
  end.

(** The world in which [filename] holds [content]. *)
Definition written (w : World) (filename content : string) : World :=
  {| files := <[filename := Regular content]> (files w);
     requests := requests w |}.

(** The world after [req] was sent. *)
Definition sent (w : World) (req : Request) : World :=
  {| files := files w; requests := requests w ++ [req] |}.

(** An extracted string that lets its record through: neither empty nor
    the string of an invalid [reflect.Value]. *)
Definition usable (s : string) : bool :=
  negb (String.eqb s "") && negb (String.eqb s "<invalid Value>").

(** The string a field name resolves to on a record. *)
Definition resolve (password : PasswordList) (fieldName : string) : string :=
  reflect.String (reflect.FieldByName password fieldName).

(** A record contributes a secret: both configured names resolve to a
    usable string. *)
Definition qualifies (keyField valueField : string) (password : PasswordList)
    : bool :=
  usable (resolve password keyField) && usable (resolve password valueField).

(** The secret of a contributing record. *)
Definition secretOf (keyField valueField : string) (password : PasswordList)
    : Secret :=
  {| Key := resolve password keyField; Value := resolve password valueField |}.

(** [n] space characters. *)
Fixpoint spaces (n : nat) : string :=
  match n with
  | O => EmptyString
  | S n' => String " "%char (spaces n')
  end.

(** [t] is [s] without its leading and trailing space characters. *)
Definition spaceTrimmed (s t : string) : Prop :=
  (exists n m, s = spaces n +:+ t +:+ spaces m)
  /\ (forall t', t <> String " "%char t')
  /\ (forall t', t <> t' +:+ " ").

(** The cut set of the claim about whitespace: spaces, tabs, newlines. *)
Definition whitespace : string := " " +:+ TAB +:+ LF.

(** The line of a secret if all surrounding whitespace were removed. *)
Definition whitespaceTrimmedLine (encode : bool) (secret : Secret) : string :=
  let key := strings.Trim (Key secret) whitespace in
  let value := strings.Trim (Value secret) whitespace in
  line key (if encode then base64.EncodeToString value else value).

(** The placeholder [Value.String()] gives for the fields of
    [PasswordList] that are not strings. *)
Definition placeholder (fieldName : string) : option string :=
  if String.eqb fieldName "PasswordID" then Some "<int Value>"
  else if String.eqb fieldName "AccountTypeID" then Some "<int Value>"
  else if String.eqb fieldName "AllowExport" then Some "<bool Value>"
  else None.

(** The names of the fields of [PasswordList]. *)
Definition fieldNames : list string :=
  ["PasswordID"; "Title"; "UserName"; "Description";
   "GenericField1"; "GenericField2"; "GenericField3"; "GenericField4";
   "GenericField5"; "GenericField6"; "GenericField7"; "GenericField8";
   "GenericField9"; "GenericField10"; "AccountTypeID"; "Notes"; "URL";
   "Password"; "ExpiryDate"; "AllowExport"; "AccountType"].

(** [n] times the byte [c]. *)
Fixpoint repeated (c : ascii) (n : nat) : string :=
  match n with
  | O => EmptyString
  | S n' => String c (repeated c n')
  end.

(** The byte [c] occurs in [s]. *)
Definition occurs (c : ascii) (s : string) : bool := strings.inCutset s c.

(** The range of a Go [int64]. *)
Definition MinInt64 : Z := - 2 ^ 63.
Definition MaxInt64 : Z := 2 ^ 63 - 1.

(** An absolute URL, as the claims name it: a URL that begins with a
    scheme ([URL.IsAbs] of [net/url]). *)
Definition absoluteURL (rawurl : string) : bool :=
  match url.getscheme rawurl with
  | inl (scheme, _) => negb (String.eqb scheme "")
  | inr _ => false
  end.

(** Strings one after the other. *)
Fixpoint joined (texts : list string) : string :=
  match texts with
  | [] => EmptyString
  | text :: rest => text +:+ joined rest
  end.

(** The value between the quotes: the trimmed text, encoded if asked
    for. *)
Definition quoted (encode : bool) (text : string) : string :=
  if encode then base64.EncodeToString (strings.Trim text " ")
  else strings.Trim text " ".

(** ** Checks of the library models *)

Example trim_spaces : strings.Trim "  a b  " " " = "a b".
Proof. reflexivity. Qed.

Example trimright_slashes :
  strings.TrimRight "https://ps.example.com//" "/" = "https://ps.example.com".
Proof. reflexivity. Qed.

Example itoa_neg : strconv.Itoa (-1) = "-1".
Proof. reflexivity. Qed.

Example itoa_zero : strconv.Itoa 0 = "0".
Proof. reflexivity. Qed.

Example base64_pass : base64.EncodeToString "p@ss" = "cEBzcw==".
Proof. reflexivity. Qed.

Example base64_foobar : base64.EncodeToString "foobar" = "Zm9vYmFy".
Proof. reflexivity. Qed.

(** ** Strings and files *)

Lemma append_cons (c : ascii) (s t : string) :
  String c s +:+ t = String c (s +:+ t).
Proof. reflexivity. Qed.

Lemma append_nil_r (s : string) : s +:+ "" = s.
Proof.
  induction s as [|c s IH]; [reflexivity|].
  now rewrite append_cons, IH.
Qed.

Lemma append_assoc (a b c : string) : (a +:+ b) +:+ c = a +:+ (b +:+ c).
Proof.
  induction a as [|x a IH]; [reflexivity|].
  now rewrite !append_cons, IH.
Qed.

Lemma length_append (a b : string) :
  String.length (a +:+ b) = (String.length a + String.length b)%nat.
Proof.
  induction a as [|x a IH]; [reflexivity|].
  rewrite append_cons; simpl. now rewrite IH.
Qed.

Lemma skip_nil (n : nat) : os.skip n "" = "".
Proof. destruct n; reflexivity. Qed.

Lemma skip_skip (n m : nat) (s : string) :
  os.skip n (os.skip m s) = os.skip (m + n) s.
Proof.
  revert s; induction m as [|m IH]; intros s; simpl; [reflexivity|].
  destruct s as [|c s]; [apply skip_nil | apply IH].
Qed.

Lemma skip_all (s : string) : os.skip (String.length s) s = "".
Proof. induction s as [|c s IH]; simpl; [reflexivity | exact IH]. Qed.

(** Writing right after a prefix [a] keeps [a] and overwrites what
    follows it. *)
Lemma writeAt_append (a t data : string) :
  os.writeAt (a +:+ t) (String.length a) data
  = a +:+ data +:+ os.skip (String.length data) t.
Proof.
  induction a as [|x a IH]; [reflexivity|].
  rewrite !append_cons; simpl. now rewrite IH.
Qed.

Lemma World_eta (w : World) :
  {| files := files w; requests := requests w |} = w.
Proof. destruct w; reflexivity. Qed.

(** One [WriteString] on a file whose first [length done] bytes were
    written by this run over the old content. *)
Lemma WriteString_written (w : World) (filename done old data : string) :
  os.WriteString {| os.name := filename; os.offset := String.length done |} data
    (written w filename (done +:+ os.skip (String.length done) old))
  = (written w filename
       ((done +:+ data) +:+ os.skip (String.length (done +:+ data)) old),
     {| os.name := filename; os.offset := String.length (done +:+ data) |}).
Proof.
  unfold os.WriteString, written; simpl.
  rewrite lookup_insert_eq, writeAt_append, skip_skip, insert_insert_eq.
  now rewrite length_append, append_assoc.
Qed.

(** The loop of [outputToYaml]: the lines go one after the other. *)
Lemma save_loop (encode : bool) (secrets : list Secret) :
  forall (w : World) (filename done old : string),
    fold_left (save encode) secrets
      (written w filename (done +:+ os.skip (String.length done) old),
       {| os.name := filename; os.offset := String.length done |})
    = (written w filename
         ((done +:+ secretLines encode secrets)
          +:+ os.skip (String.length (done +:+ secretLines encode secrets)) old),
       {| os.name := filename;
          os.offset := String.length (done +:+ secretLines encode secrets) |}).
Proof.
  induction secrets as [|secret secrets IH]; intros w filename done old; simpl.
  - now rewrite append_nil_r.
  - unfold save at 2; simpl. rewrite WriteString_written, IH.
    now rewrite (append_assoc done).
Qed.

Lemma written_same (w : World) (filename content : string) :
  files w !! filename = Some (Regular content) ->
  written w filename content = w.
Proof.
  intros Hfile. unfold written. rewrite insert_id by exact Hfile.
  apply World_eta.
Qed.

(** ** The writer *)

(** On a path that can be opened, [outputToYaml] lays its document over
    the head of the old content and leaves the rest of it in place. *)
Lemma outputToYaml_openable (filename section : string) (encode : bool)
    (secrets : list Secret) (w : World) :
  openable w filename = true ->
  outputToYaml filename section encode secrets w
  = (written w filename
       (document section encode secrets
        +:+ os.skip (String.length (document section encode secrets))
              (prior w filename)),
     None).
Proof.
  unfold openable, prior, outputToYaml, os.OpenFile, document.
  destruct (files w !! filename) as [[content|err]|] eqn:Hfile;
    [intros _ | discriminate | intros _].
  - rewrite <- (written_same w filename content Hfile) at 1.
    rewrite (WriteString_written w filename "" content), save_loop.
    reflexivity.
  - rewrite (WriteString_written w filename "" ""), save_loop.
    reflexivity.
Qed.

(** On a path that cannot be opened, [outputToYaml] returns the error
    of [os.OpenFile] and touches nothing. *)
Lemma outputToYaml_unopenable (filename section : string) (encode : bool)
    (secrets : list Secret) (w : World) (err : error) :
  files w !! filename = Some (Unopenable err) ->
  outputToYaml filename section encode secrets w = (w, Some err).
Proof.
  intros Hfile. unfold outputToYaml, os.OpenFile. now rewrite Hfile.
Qed.

Lemma openable_cases (w : World) (filename : string) :
  openable w filename = true
  \/ exists err, files w !! filename = Some (Unopenable err).
Proof.
  unfold openable. destruct (files w !! filename) as [[content|err]|];
    [now left | right; now exists err | now left].
Qed.

(** The writer sends nothing. *)
Lemma outputToYaml_requests (filename section : string) (encode : bool)
    (secrets : list Secret) (w : World) :
  requests (fst (outputToYaml filename section encode secrets w)) = requests w.
Proof.
  destruct (openable_cases w filename) as [Hopen | [err Hfile]].
  - now rewrite outputToYaml_openable.
  - now rewrite (outputToYaml_unopenable _ _ _ _ _ err).
Qed.

(** A document written to a fresh path is the whole file. *)
Lemma fresh_document (w : World) (filename text : string) :
  fresh w filename = true ->
  openable w filename = true
  /\ text +:+ os.skip (String.length text) (prior w filename) = text.
Proof.
  unfold fresh, openable, prior.
  destruct (files w !! filename) as [[[|c content]|err]|]; try discriminate;
    intros _; (split; [reflexivity|]); now rewrite skip_nil, append_nil_r.
Qed.

(** ** Validation and execution *)

Section Facts.

Variable ParseRequestURI : string -> option error.
Variable Get : Request -> Response.

Lemma validate_None (c : Config) :
  validate ParseRequestURI c = None
  <-> ParseRequestURI (ApiEndpoint c) = None
      /\ PasswordListId c <> 0
      /\ ApiKey c <> ""
      /\ OutputFormat c = "YAML".
Proof.
  unfold validate.
  destruct (ParseRequestURI (ApiEndpoint c)) as [err|];
    [split; [discriminate | now intros [? _]]|].
  destruct (Z.eqb_spec (PasswordListId c) 0) as [Hid|Hid];
    [split; [discriminate | now intros (_ & ? & _)]|].
  destruct (String.eqb_spec (ApiKey c) "") as [Hkey|Hkey];
    [split; [discriminate | now intros (_ & _ & ? & _)]|].
  destruct (String.eqb_spec (OutputFormat c) "YAML") as [Hfmt|Hfmt]; simpl;
    [now split | split; [discriminate | now intros (_ & _ & _ & ?)]].
Qed.

(** A validation error ends the run where it started. *)
Lemma Exec_invalid (p : Plugin) (w : World) (err : error) :
  validate ParseRequestURI (Plugin_Config p) = Some err ->
  Exec ParseRequestURI Get p w = (w, Some err).
Proof. intros Hv. unfold Exec. now rewrite Hv. Qed.

(** A failed fetch ends the run after the request. *)
Lemma Exec_fetch_failed (p : Plugin) (w : World) (err : error) :
  validate ParseRequestURI (Plugin_Config p) = None ->
  Get (request (Plugin_Config p)) = GetFailed err ->
  Exec ParseRequestURI Get p w
  = (sent w (request (Plugin_Config p)), Some err).
Proof.
  intros Hv Hget. unfold Exec, getSecrets. now rewrite Hv, Hget.
Qed.

(** A run that passes validation and the fetch: the guard, then the
    writer, whose result is dropped. *)
Lemma Exec_fetched (p : Plugin) (w : World) (passwords : list PasswordList) :
  let c := Plugin_Config p in
  let secrets := fold_left (convert (KeyField c) (ValueField c)) passwords [] in
  validate ParseRequestURI c = None ->
  Get (request c) = Result passwords ->
  Exec ParseRequestURI Get p w
  = if NoSecretsFail c && (length secrets =? 0)%nat
    then (sent w (request c),
          Some (errorString "no secrets were retrieved from PasswordState"))
    else (fst (outputToYaml (OutputPath c) (SectionName c) (EncodeSecrets c)
                 secrets (sent w (request c))),
          None).
Proof.
  intros c secrets Hv Hget. unfold Exec, getSecrets. fold c.
  rewrite Hv, Hget. fold secrets.
  apply validate_None in Hv as (_ & _ & _ & Hfmt). rewrite Hfmt.
  reflexivity.
Qed.

End Facts.

(** ** The projection of records onto secrets *)

Lemma usable_spec (s : string) :
  usable s = true <-> s <> "" /\ s <> "<invalid Value>".
Proof.
  unfold usable.
  destruct (String.eqb_spec s "") as [He|He],
           (String.eqb_spec s "<invalid Value>") as [Hi|Hi]; simpl;
    split; try discriminate; try tauto; intros [? ?]; contradiction.
Qed.

(** One turn of the loop of [getSecrets]. *)
Lemma convert_step (keyField valueField : string) (secrets : list Secret)
    (password : PasswordList) :
  convert keyField valueField secrets password
  = if qualifies keyField valueField password
    then secrets ++ [secretOf keyField valueField password]
    else secrets.
Proof.
  unfold convert, qualifies, usable, secretOf, resolve.
  destruct (String.eqb _ ""), (String.eqb _ "<invalid Value>"); simpl;
    try reflexivity;
    destruct (String.eqb _ ""), (String.eqb _ "<invalid Value>"); reflexivity.
Qed.

(** The loop of [getSecrets] keeps the contributing records, in order. *)
Lemma convert_loop (keyField valueField : string) (passwords : list PasswordList) :
  forall secrets : list Secret,
    fold_left (convert keyField valueField) passwords secrets
    = secrets ++ map (secretOf keyField valueField)
                   (List.filter (qualifies keyField valueField) passwords).
Proof.
  induction passwords as [|password passwords IH]; intros secrets; simpl.
  - now rewrite app_nil_r.
  - rewrite IH, convert_step.
    destruct (qualifies keyField valueField password); simpl;
      [now rewrite <- app_assoc | reflexivity].
Qed.

(** ** The claims *)

(** C1 (the code departs from the claim).  When the output file cannot
    be opened, [outputToYaml] returns the error of [os.OpenFile], but
    [Exec] does not look at what [outputToYaml] returns: here, with the
    configuration and the records of the specification's example and
    an output path that is a directory, the run ends with a [nil]
    error. *)
Theorem Exec_drops_the_write_error :
  let p := {| Plugin_Config := exampleConfig false false |} in
  let denied := PathError "open" "secrets.yml" "is a directory" in
  let w := worldWith "secrets.yml" (Unopenable denied) in
  let w1 := sent w (request (Plugin_Config p)) in
  let secrets := [ {| Key := "db"; Value := "p@ss" |} ] in
  validate exampleParseRequestURI (Plugin_Config p) = None
  /\ getSecrets (serverOf exampleRecords) p w = (w1, inl secrets)
  /\ outputToYaml "secrets.yml" "secrets" false secrets w1 = (w1, Some denied)
  /\ Exec exampleParseRequestURI (serverOf exampleRecords) p w = (w1, None).
Proof. repeat split; vm_compute; reflexivity. Qed.

(** C2 (the code departs from the claim).  [os.OpenFile] is called
    without [O_TRUNC], so the document is laid over the head of the old
    content and what the old content has beyond it stays in the file:
    here a file written by an earlier run with the secrets [db] and
    [old] is written again with [db] alone, and still holds the line of
    [old]. *)
Theorem outputToYaml_keeps_the_old_tail :
  let db := {| Key := "db"; Value := "p@ss" |} in
  let old := {| Key := "old"; Value := "gone" |} in
  let before := worldWith "secrets.yml" (Regular (document "secrets" false [db; old])) in
  outputToYaml "secrets.yml" "secrets" false [db] before = (before, None)
  /\ document "secrets" false [db; old] <> document "secrets" false [db].
Proof. split; [vm_compute; reflexivity | vm_compute; discriminate]. Qed.

(** C3.  Whatever records the fetch returns, [getSecrets] returns no
    error and the secrets of exactly the records on which both the key
    field and the value field resolve to a string that is neither empty
    nor ["<invalid Value>"], in the order of the records. *)
Theorem getSecrets_keeps_the_usable_records_in_order
    (Get : Request -> Response) (p : Plugin) (w : World)
    (passwords : list PasswordList) :
  let c := Plugin_Config p in
  Get (request c) = Result passwords ->
  getSecrets Get p w
  = (sent w (request c),
     inl (map (secretOf (KeyField c) (ValueField c))
            (List.filter (qualifies (KeyField c) (ValueField c)) passwords)))
  /\ forall password : PasswordList,
       qualifies (KeyField c) (ValueField c) password = true
       <-> (resolve password (KeyField c) <> ""
            /\ resolve password (KeyField c) <> "<invalid Value>")
           /\ (resolve password (ValueField c) <> ""
               /\ resolve password (ValueField c) <> "<invalid Value>").
Proof.
  intros c Hget. split.
  - unfold getSecrets. fold c. rewrite Hget, convert_loop. reflexivity.
  - intros password. unfold qualifies.
    rewrite andb_true_iff, !usable_spec. reflexivity.
Qed.

(** The records of the example: the first contributes, the second is
    skipped for its empty title. *)
Lemma getSecrets_keeps_the_usable_records_in_order_witness :
  getSecrets (serverOf exampleRecords)
    {| Plugin_Config := exampleConfig false false |} emptyWorld
  = (sent emptyWorld (request (exampleConfig false false)),
     inl [ {| Key := "db"; Value := "p@ss" |} ]).
Proof.
  exact (proj1 (getSecrets_keeps_the_usable_records_in_order
                  (serverOf exampleRecords)
                  {| Plugin_Config := exampleConfig false false |}
                  emptyWorld exampleRecords eq_refl)).
Defined.

(** C4 (the code departs from the claim).  With the configuration and
    the two records of the example, the run writes the header, the
    section and the line of [db]; but the output file is opened without
    [O_TRUNC], so this text is the whole file only when the file held
    no more before.  Here the file of an earlier run, which also had a
    secret [old], is written again: the run returns no error and the
    file still ends with the line of [old], so it is not the content of
    the example. *)
Theorem Exec_on_the_example_over_an_earlier_file :
  let p := {| Plugin_Config := exampleConfig false false |} in
  let earlier :=
    document "secrets" false
      [ {| Key := "db"; Value := "p@ss" |}; {| Key := "old"; Value := "gone" |} ] in
  let w := worldWith "secrets.yml" (Regular earlier) in
  let w1 := sent w (request (Plugin_Config p)) in
  Exec exampleParseRequestURI (serverOf exampleRecords) p w = (w1, None)
  /\ files w1 !! "secrets.yml"
     = Some (Regular ("---" +:+ LF +:+ "secrets:" +:+ LF
                      +:+ "  db: 'p@ss'" +:+ LF +:+ "  old: 'gone'" +:+ LF))
  /\ "---" +:+ LF +:+ "secrets:" +:+ LF
     +:+ "  db: 'p@ss'" +:+ LF +:+ "  old: 'gone'" +:+ LF
     <> "---" +:+ LF +:+ "secrets:" +:+ LF +:+ "  db: 'p@ss'" +:+ LF.
Proof. repeat split; vm_compute; try reflexivity; discriminate. Qed.

(** *** Trimming with the cut set [" "] *)

Lemma TrimLeft_spaces (s : string) :
  (exists n, s = spaces n +:+ strings.TrimLeft s " ")
  /\ forall t', strings.TrimLeft s " " <> String " "%char t'.
Proof.
  induction s as [|c s [[n Hn] Hhead]]; simpl.
  - split; [now exists O | discriminate].
  - destruct (Ascii.eqb_spec c " "%char) as [->|Hc].
    + split; [exists (S n); simpl; now rewrite append_cons, <- Hn | exact Hhead].
    + split; [now exists O | intros t' [= Heq _]; contradiction].
Qed.

Lemma TrimRight_spaces (s : string) :
  (exists m, s = strings.TrimRight s " " +:+ spaces m)
  /\ forall t', strings.TrimRight s " " <> t' +:+ " ".
Proof.
  induction s as [|c s [[m Hm] Hlast]]; simpl.
  - split; [now exists O | intros [|x t']; discriminate].
  - destruct (strings.TrimRight s " ") as [|d kept] eqn:Hkept.
    + destruct (Ascii.eqb_spec c " "%char) as [->|Hc].
      * split; [exists (S m); simpl; now rewrite Hm | intros [|x t']; discriminate].
      * split; [exists m; now rewrite append_cons, <- Hm|].
        intros [|x [|y t']]; [intros [= Heq]; contradiction | discriminate..].
    + split; [exists m; now rewrite append_cons, <- Hm|].
      intros [|x t']; [discriminate|].
      rewrite append_cons. intros [= _ Heq]. exact (Hlast t' Heq).
Qed.

(** [TrimRight] returns a prefix of its argument. *)
Lemma TrimRight_head (s cutset : string) (c : ascii) (t' : string) :
  strings.TrimRight s cutset = String c t' -> exists s', s = String c s'.
Proof.
  destruct s as [|x s]; simpl; [discriminate|].
  destruct (strings.TrimRight s cutset);
    [destruct (strings.inCutset cutset x); [discriminate|]|];
    intros [= -> _]; now eexists.
Qed.

(** [strings.Trim(s, " ")] is [s] without its leading and trailing
    spaces. *)
Lemma Trim_spaceTrimmed (s : string) : spaceTrimmed s (strings.Trim s " ").
Proof.
  unfold strings.Trim.
  destruct (TrimLeft_spaces s) as [[n Hn] Hhead].
  destruct (TrimRight_spaces (strings.TrimLeft s " ")) as [[m Hm] Hlast].
  repeat split.
  - exists n, m. now rewrite <- Hm.
  - intros t' Heq. destruct (TrimRight_head _ _ _ _ Heq) as [s' Hs'].
    exact (Hhead s' Hs').
  - exact Hlast.
Qed.

Lemma spaces_snoc (n : nat) : spaces (S n) = spaces n +:+ " ".
Proof.
  induction n as [|n IH]; [reflexivity|].
  change (spaces (S (S n))) with (String " "%char (spaces (S n))).
  rewrite IH at 1. reflexivity.
Qed.

Lemma TrimLeft_skips_spaces (n : nat) (s : string) :
  strings.TrimLeft (spaces n +:+ s) " " = strings.TrimLeft s " ".
Proof. induction n as [|n IH]; [reflexivity | exact IH]. Qed.

Lemma TrimRight_only_spaces (m : nat) : strings.TrimRight (spaces m) " " = "".
Proof. induction m as [|m IH]; simpl; [reflexivity | now rewrite IH]. Qed.

Lemma TrimRight_drops_spaces (s : string) (m : nat) :
  strings.TrimRight (s +:+ spaces m) " " = strings.TrimRight s " ".
Proof.
  induction s as [|c s IH]; [apply TrimRight_only_spaces|].
  rewrite append_cons; simpl. now rewrite IH.
Qed.

(** Only one string is [s] without its leading and trailing spaces:
    the result of [strings.Trim(s, " ")]. *)
Lemma spaceTrimmed_unique (s t : string) :
  spaceTrimmed s t -> t = strings.Trim s " ".
Proof.
  intros ((n & m & ->) & Hhead & Hlast). unfold strings.Trim.
  rewrite TrimLeft_skips_spaces.
  assert (Hleft : strings.TrimLeft (t +:+ spaces m) " " = t +:+ spaces m
                  \/ t = "").
  { destruct t as [|c t']; [now right | left].
    rewrite append_cons; simpl.
    destruct (Ascii.eqb_spec c " "%char) as [->|_]; [|reflexivity].
    now destruct (Hhead t'). }
  assert (Hright : strings.TrimRight t " " = t).
  { destruct (TrimRight_spaces t) as [[k Hk] _]. destruct k as [|k].
    - now rewrite append_nil_r in Hk.
    - rewrite spaces_snoc, <- append_assoc in Hk. now destruct (Hlast _ Hk). }
  destruct Hleft as [-> | ->].
  - now rewrite TrimRight_drops_spaces.
  - change ("" +:+ spaces m) with (spaces m).
    clear Hhead Hlast Hright. induction m as [|m IH]; [reflexivity|].
    simpl. exact IH.
Qed.

(** C5, amended.  Every secret is written as the line
    [  key: 'value'], where the key and the value are the secret's
    without their leading and trailing space characters (the cut set
    of [strings.Trim] is [" "]: tabs and newlines are kept), the value
    being base64-encoded after trimming when encoding is enabled; on a
    path that holds nothing yet the file is the header followed by
    these lines. *)
Theorem outputToYaml_trims_spaces (filename section : string) (encode : bool)
    (secrets : list Secret) (w : World) :
  fresh w filename = true ->
  outputToYaml filename section encode secrets w
  = (written w filename (header section +:+ secretLines encode secrets), None)
  /\ forall secret : Secret,
       exists key value : string,
         secretLine encode secret
         = line key (if encode then base64.EncodeToString value else value)
         /\ spaceTrimmed (Key secret) key
         /\ spaceTrimmed (Value secret) value.
Proof.
  intros Hfresh. split.
  - destruct (fresh_document w filename (document section encode secrets) Hfresh)
      as [Hopen Htext].
    now rewrite outputToYaml_openable, Htext.
  - intros secret.
    exists (strings.Trim (Key secret) " "), (strings.Trim (Value secret) " ").
    split; [reflexivity | split; apply Trim_spaceTrimmed].
Qed.

(** A key and a value with spaces around them. *)
Lemma outputToYaml_trims_spaces_witness :
  outputToYaml "secrets.yml" "secrets" true
    [ {| Key := " db "; Value := "  p@ss" |} ] emptyWorld
  = (written emptyWorld "secrets.yml"
       ("---" +:+ LF +:+ "secrets:" +:+ LF +:+ "  db: 'cEBzcw=='" +:+ LF),
     None).
Proof.
  exact (proj1 (outputToYaml_trims_spaces "secrets.yml" "secrets" true
                  [ {| Key := " db "; Value := "  p@ss" |} ] emptyWorld eq_refl)).
Defined.

(** C5 as stated fails: a key that starts with a tab and a value that
    ends with a newline are written with the tab and the newline, not
    as the line the removal of all surrounding whitespace would give. *)
Lemma outputToYaml_keeps_tabs_and_newlines :
  outputToYaml "secrets.yml" "secrets" false
    [ {| Key := TAB +:+ "k"; Value := "v" +:+ LF |} ] emptyWorld
  = (written emptyWorld "secrets.yml"
       (header "secrets" +:+ line (TAB +:+ "k") ("v" +:+ LF)),
     None)
  /\ whitespaceTrimmedLine false {| Key := TAB +:+ "k"; Value := "v" +:+ LF |}
     = line "k" "v"
  /\ line (TAB +:+ "k") ("v" +:+ LF) <> line "k" "v".
Proof. repeat split; vm_compute; try reflexivity; discriminate. Qed.

(** C6 (the code departs from the claim).  The guard is as the claim
    says: with the fail-on-empty flag set and no secret, [Exec] returns
    the error before the writer is reached.  With the flag unset the
    run returns no error, but the file is not always the header and the
    empty section alone: over the file of an earlier run (opened
    without [O_TRUNC]) the line of that run's secret stays, and on a
    path that cannot be opened nothing is written at all while [Exec]
    still returns no error. *)
Theorem Exec_with_no_secret_keeps_an_earlier_file :
  let p := {| Plugin_Config := exampleConfig false false |} in
  let get := serverOf [titled "" "x"] in
  let earlier := document "secrets" false [ {| Key := "db"; Value := "p@ss" |} ] in
  let w := worldWith "secrets.yml" (Regular earlier) in
  let denied := PathError "open" "secrets.yml" "is a directory" in
  let blocked := worldWith "secrets.yml" (Unopenable denied) in
  getSecrets get p w = (sent w (request (Plugin_Config p)), inl [])
  /\ Exec exampleParseRequestURI get p w
     = (sent w (request (Plugin_Config p)), None)
  /\ files (sent w (request (Plugin_Config p))) !! "secrets.yml"
     = Some (Regular ("---" +:+ LF +:+ "secrets:" +:+ LF
                      +:+ "  db: 'p@ss'" +:+ LF))
  /\ "---" +:+ LF +:+ "secrets:" +:+ LF +:+ "  db: 'p@ss'" +:+ LF
     <> "---" +:+ LF +:+ "secrets:" +:+ LF
  /\ Exec exampleParseRequestURI get p blocked
     = (sent blocked (request (Plugin_Config p)), None).
Proof. repeat split; vm_compute; try reflexivity; discriminate. Qed.

(** Whatever the check of the endpoint is: validation fails exactly
    when the check refuses the endpoint, the list identifier is zero,
    the API key is empty, or the output format is not ["YAML"]; the
    error is that of the first of these conditions that is violated;
    and a failed validation ends [Exec] in the world it started in. *)
Lemma validate_first_violation
    (ParseRequestURI : string -> option error) (Get : Request -> Response)
    (c : Config) :
  (validate ParseRequestURI c <> None
   <-> ParseRequestURI (ApiEndpoint c) <> None
       \/ PasswordListId c = 0
       \/ ApiKey c = ""
       \/ OutputFormat c <> "YAML")
  /\ (forall err : error,
        ParseRequestURI (ApiEndpoint c) = Some err ->
        validate ParseRequestURI c = Some err)
  /\ (ParseRequestURI (ApiEndpoint c) = None ->
      PasswordListId c = 0 ->
      validate ParseRequestURI c
      = Some (errorString "provided list ID is not valid"))
  /\ (ParseRequestURI (ApiEndpoint c) = None ->
      PasswordListId c <> 0 ->
      ApiKey c = "" ->
      validate ParseRequestURI c = Some (errorString "api key is mandatory"))
  /\ (ParseRequestURI (ApiEndpoint c) = None ->
      PasswordListId c <> 0 ->
      ApiKey c <> "" ->
      OutputFormat c <> "YAML" ->
      validate ParseRequestURI c
      = Some (errorString "currently only YAML format is supported"))
  /\ (forall (w : World) (err : error),
        validate ParseRequestURI c = Some err ->
        Exec ParseRequestURI Get {| Plugin_Config := c |} w = (w, Some err)).
Proof.
  split; [|repeat split].
  - rewrite validate_None. split.
    + intros Hnot.
      destruct (ParseRequestURI (ApiEndpoint c)) as [err|]; [now left|].
      destruct (Z.eq_dec (PasswordListId c) 0) as [Hid|Hid]; [now right; left|].
      destruct (string_dec (ApiKey c) "") as [Hkey|Hkey];
        [now right; right; left|].
      destruct (string_dec (OutputFormat c) "YAML") as [Hfmt|Hfmt];
        [|now right; right; right].
      now destruct Hnot.
    + intros [H | [H | [H | H]]] (Hurl & Hid & Hkey & Hfmt); contradiction.
  - intros err Hurl. unfold validate. now rewrite Hurl.
  - intros Hurl Hid. unfold validate. now rewrite Hurl, Hid.
  - intros Hurl Hid Hkey. unfold validate. rewrite Hurl, Hkey.
    now destruct (Z.eqb_spec (PasswordListId c) 0).
  - intros Hurl Hid Hkey Hfmt. unfold validate. rewrite Hurl.
    destruct (Z.eqb_spec (PasswordListId c) 0); [contradiction|].
    destruct (String.eqb_spec (ApiKey c) ""); [contradiction|].
    now destruct (String.eqb_spec (OutputFormat c) "YAML").
  - intros w err Hv. now apply Exec_invalid.
Qed.

(** *** What [url.ParseRequestURI] accepts *)

Lemma getschemeLoop_no_scheme (rawurl : string) (rest : string) :
  forall seen path : string,
    url.getschemeLoop rawurl seen rest = inl (EmptyString, path) ->
    path = rawurl.
Proof.
  induction rest as [|c rest IH]; intros seen path; simpl.
  - now intros [= <-].
  - destruct (url.isLetter c); [apply IH|].
    destruct (url.isSchemeMark c).
    + destruct (String.eqb seen ""); [now intros [= <-] | apply IH].
    + destruct (Ascii.eqb c ":").
      * destruct (String.eqb_spec seen ""); [discriminate|].
        intros [= Hseen _]. contradiction.
      * now intros [= <-].
Qed.

(** The part of [parse] that follows [getscheme] when there is no
    scheme: the query is cut off, and what is left must begin with a
    slash and hold no malformed escape. *)
Lemma parse_without_scheme (parseAuthority : string -> option string)
    (Quote : string -> string) (rawurl : string) :
  rawurl <> "" ->
  rawurl <> "*" ->
  url.getscheme rawurl = inl (EmptyString, rawurl) ->
  url.parse parseAuthority Quote rawurl
  = (let rest :=
       if url.HasSuffix rawurl "?" && (url.Count rawurl "?" =? 1)%nat
       then url.dropLast rawurl
       else fst (url.split rawurl "?" true) in
     if url.HasPrefix rest "/" then url.setPath Quote rest
     else Some "invalid URI for request").
Proof.
  intros Hempty Hstar Hscheme. unfold url.parse.
  destruct (String.eqb_spec rawurl ""); [contradiction|].
  destruct (String.eqb_spec rawurl "*"); [contradiction|].
  rewrite Hscheme. cbv zeta.
  destruct (url.HasPrefix _ "/"); reflexivity.
Qed.

Lemma HasPrefix_slash (c : ascii) (s : string) :
  url.HasPrefix (String c s) "/" = Ascii.eqb c "/".
Proof. destruct s; simpl; apply andb_true_r. Qed.

Lemma dropLast_slash (s : string) :
  url.HasPrefix (url.dropLast s) "/" = true -> url.HasPrefix s "/" = true.
Proof.
  destruct s as [|c [|d s]]; [discriminate..|].
  change (url.dropLast (String c (String d s)))
    with (String c (url.dropLast (String d s))).
  now rewrite !HasPrefix_slash.
Qed.

Lemma split_slash (s : string) :
  url.HasPrefix (fst (url.split s "?" true)) "/" = true ->
  url.HasPrefix s "/" = true.
Proof.
  destruct s as [|c s]; [discriminate|]. rewrite HasPrefix_slash. simpl.
  destruct (Ascii.eqb c "?"); [discriminate|].
  destruct (url.split s "?" true); simpl fst. now rewrite HasPrefix_slash.
Qed.

Lemma dropLast_keeps_slash (path : string) :
  url.HasSuffix (String "/" path) "?" = true ->
  url.HasPrefix (url.dropLast (String "/" path)) "/" = true.
Proof.
  destruct path as [|d path]; [discriminate|]. intros _.
  change (url.dropLast (String "/" (String d path)))
    with (String "/" (url.dropLast (String d path))).
  now rewrite HasPrefix_slash.
Qed.

Lemma split_keeps_slash (path : string) :
  url.HasPrefix (fst (url.split (String "/" path) "?" true)) "/" = true.
Proof.
  simpl. destruct (url.split path "?" true); simpl fst.
  now rewrite HasPrefix_slash.
Qed.

Lemma inCutset_cons (cutset : string) (c x : ascii) :
  strings.inCutset (String c cutset) x
  = if Ascii.eqb x c then true else strings.inCutset cutset x.
Proof. reflexivity. Qed.

Lemma occurs_dropLast (x : ascii) (s : string) :
  occurs x s = false -> occurs x (url.dropLast s) = false.
Proof.
  unfold occurs. induction s as [|c s IH]; [reflexivity|].
  destruct s as [|d s]; [reflexivity|].
  change (url.dropLast (String c (String d s)))
    with (String c (url.dropLast (String d s))).
  rewrite (inCutset_cons (String d s)), (inCutset_cons (url.dropLast _)).
  destruct (Ascii.eqb x c); [discriminate | exact IH].
Qed.

Lemma occurs_split (x : ascii) (s : string) (c : ascii) (cutc : bool) :
  occurs x s = false -> occurs x (fst (url.split s c cutc)) = false.
Proof.
  unfold occurs. induction s as [|d s IH]; [reflexivity|]. simpl.
  destruct (Ascii.eqb x d) eqn:Hx; [discriminate|]. intros Hs.
  destruct (Ascii.eqb d c); [reflexivity|].
  specialize (IH Hs). destruct (url.split s c cutc); simpl in *.
  now rewrite Hx.
Qed.

Lemma malformedEscape_without_percent (s : string) :
  occurs "%" s = false -> url.malformedEscape s = None.
Proof.
  unfold occurs. induction s as [|c s IH]; [reflexivity|].
  rewrite inCutset_cons. simpl url.malformedEscape.
  rewrite (Ascii.eqb_sym c "%").
  destruct (Ascii.eqb "%" c); [intros Hin; discriminate Hin | exact IH].
Qed.

(** [url.ParseRequestURI] accepts every path that begins with a slash
    and holds no percent sign. *)
Lemma ParseRequestURI_absolute_path (parseAuthority : string -> option string)
    (Quote : string -> string) (path : string) :
  occurs "%" path = false ->
  url.ParseRequestURI parseAuthority Quote ("/" +:+ path) = None.
Proof.
  intros Hpath. unfold url.ParseRequestURI.
  change ("/" +:+ path) with (String "/" path).
  assert (Hraw : occurs "%" (String "/" path) = false) by exact Hpath.
  rewrite parse_without_scheme; [|discriminate | discriminate | reflexivity].
  cbv zeta.
  destruct (url.HasSuffix (String "/" path) "?" && _) eqn:Hquery.
  - apply andb_true_iff in Hquery as [Hsuffix _].
    rewrite (dropLast_keeps_slash path Hsuffix). unfold url.setPath.
    now rewrite (malformedEscape_without_percent _ (occurs_dropLast _ _ Hraw)).
  - rewrite split_keeps_slash. unfold url.setPath.
    now rewrite (malformedEscape_without_percent _ (occurs_split _ _ _ _ Hraw)).
Qed.

(** [url.ParseRequestURI] refuses what has no scheme, unless it is [*]
    or begins with a slash. *)
Lemma ParseRequestURI_needs_scheme_or_slash
    (parseAuthority : string -> option string) (Quote : string -> string)
    (rawurl : string) :
  absoluteURL rawurl = false ->
  rawurl <> "*" ->
  url.HasPrefix rawurl "/" = false ->
  url.ParseRequestURI parseAuthority Quote rawurl <> None.
Proof.
  unfold absoluteURL, url.ParseRequestURI. intros Habs Hstar Hslash.
  destruct (String.eqb_spec rawurl "") as [-> | Hempty]; [discriminate|].
  destruct (url.getscheme rawurl) as [[scheme rest] | err] eqn:Hscheme.
  - destruct (String.eqb_spec scheme "") as [-> | _];
      [|simpl in Habs; discriminate Habs].
    pose proof (getschemeLoop_no_scheme _ _ _ _ Hscheme) as ->.
    rewrite parse_without_scheme by assumption. cbv zeta.
    match goal with
    | |- context [if url.HasPrefix ?r "/" then _ else _] =>
        destruct (url.HasPrefix r "/") eqn:Hrest
    end; [|simpl; discriminate].
    destruct (url.HasSuffix rawurl "?" && _).
    + apply dropLast_slash in Hrest. congruence.
    + apply split_slash in Hrest. congruence.
  - unfold url.parse.
    destruct (String.eqb_spec rawurl ""); [contradiction|].
    destruct (String.eqb_spec rawurl "*"); [contradiction|].
    rewrite Hscheme. simpl. discriminate.
Qed.

(** C7, amended.  Validation fails exactly when [url.ParseRequestURI]
    returns an error for the endpoint, the list identifier is zero, the
    API key is empty, or the output format is not ["YAML"]; the error
    is that of the first of these conditions that is violated, in this
    order; and a failed validation ends [Exec] with that error in the
    world it started in.  [url.ParseRequestURI] does not ask for an
    absolute URL: it refuses the empty endpoint and an endpoint without
    scheme that neither is [*] nor begins with a slash, and it accepts
    [*] and every path that begins with a slash (and holds no percent
    sign). *)
Theorem validate_fails_as_ParseRequestURI_decides
    (parseAuthority : string -> option string) (Quote : string -> string)
    (Get : Request -> Response) (c : Config) :
  let check := url.ParseRequestURI parseAuthority Quote in
  (validate check c <> None
   <-> check (ApiEndpoint c) <> None
       \/ PasswordListId c = 0
       \/ ApiKey c = ""
       \/ OutputFormat c <> "YAML")
  /\ (forall err : error,
        check (ApiEndpoint c) = Some err -> validate check c = Some err)
  /\ (check (ApiEndpoint c) = None ->
      PasswordListId c = 0 ->
      validate check c = Some (errorString "provided list ID is not valid"))
  /\ (check (ApiEndpoint c) = None ->
      PasswordListId c <> 0 ->
      ApiKey c = "" ->
      validate check c = Some (errorString "api key is mandatory"))
  /\ (check (ApiEndpoint c) = None ->
      PasswordListId c <> 0 ->
      ApiKey c <> "" ->
      OutputFormat c <> "YAML" ->
      validate check c
      = Some (errorString "currently only YAML format is supported"))
  /\ (forall (w : World) (err : error),
        validate check c = Some err ->
        Exec check Get {| Plugin_Config := c |} w = (w, Some err))
  /\ check "" = Some (url_Error "parse" "" "empty url")
  /\ check "*" = None
  /\ (forall path : string,
        occurs "%" path = false -> check ("/" +:+ path) = None)
  /\ (forall rawurl : string,
        absoluteURL rawurl = false ->
        rawurl <> "*" ->
        url.HasPrefix rawurl "/" = false ->
        check rawurl <> None).
Proof.
  intros check.
  destruct (validate_first_violation check Get c)
    as (Hiff & Hurl & Hid & Hkey & Hfmt & Heffect).
  split; [exact Hiff|]. split; [exact Hurl|]. split; [exact Hid|].
  split; [exact Hkey|]. split; [exact Hfmt|]. split; [exact Heffect|].
  split; [reflexivity|]. split; [reflexivity|].
  split; [apply ParseRequestURI_absolute_path
         | apply ParseRequestURI_needs_scheme_or_slash].
Qed.

(** C7 as stated fails: the endpoint [/api] has no scheme, so it is not
    an absolute URL, and the other three conditions hold; yet
    [url.ParseRequestURI] accepts it and validation passes, whatever
    the check of the authority is. *)
Lemma validate_accepts_an_absolute_path :
  absoluteURL "/api" = false
  /\ PasswordListId (configOf "/api" 42 "Title" "Password") <> 0
  /\ ApiKey (configOf "/api" 42 "Title" "Password") <> ""
  /\ OutputFormat (configOf "/api" 42 "Title" "Password") = "YAML"
  /\ (forall (parseAuthority : string -> option string)
             (Quote : string -> string),
        validate (url.ParseRequestURI parseAuthority Quote)
          (configOf "/api" 42 "Title" "Password")
        = None).
Proof.
  split; [reflexivity|]. split; [discriminate|]. split; [discriminate|].
  split; [reflexivity|]. intros parseAuthority Quote. reflexivity.
Qed.

(** C8.  When [url.ParseRequestURI] refuses the endpoint, [Exec] returns
    its error in the world it started in: no request has been sent, and
    the result does not depend on what the API would answer. *)
Theorem Exec_refuses_the_endpoint_before_the_fetch
    (ParseRequestURI : string -> option error) (Get : Request -> Response)
    (p : Plugin) (w : World) (err : error) :
  ParseRequestURI (ApiEndpoint (Plugin_Config p)) = Some err ->
  Exec ParseRequestURI Get p w = (w, Some err)
  /\ requests (fst (Exec ParseRequestURI Get p w)) = requests w
  /\ forall Get' : Request -> Response,
       Exec ParseRequestURI Get' p w = Exec ParseRequestURI Get p w.
Proof.
  intros Hurl.
  assert (Hv : validate ParseRequestURI (Plugin_Config p) = Some err)
    by (unfold validate; now rewrite Hurl).
  repeat split.
  - now apply Exec_invalid.
  - now rewrite (Exec_invalid _ Get _ _ err).
  - intros Get'.
    now rewrite (Exec_invalid _ Get _ _ err), (Exec_invalid _ Get' _ _ err).
Qed.

(** The empty endpoint. *)
Lemma Exec_refuses_the_endpoint_before_the_fetch_witness :
  Exec exampleParseRequestURI (serverOf exampleRecords)
    {| Plugin_Config := configOf "" 42 "Title" "Password" |} emptyWorld
  = (emptyWorld, Some (url_Error "parse" "" "empty url")).
Proof.
  exact (proj1 (Exec_refuses_the_endpoint_before_the_fetch
                  exampleParseRequestURI (serverOf exampleRecords)
                  {| Plugin_Config := configOf "" 42 "Title" "Password" |}
                  emptyWorld (url_Error "parse" "" "empty url") eq_refl)).
Defined.

(** [strconv.Itoa] loses nothing: the numeral reads back as the integer. *)
Lemma Atoi_Itoa (i : Z) : strconv.Atoi (strconv.Itoa i) = Some i.
Proof.
  unfold strconv.Atoi, strconv.Itoa. rewrite NilZero.isi.
  - simpl. now rewrite DecimalZ.of_to.
  - destruct i; simpl; try discriminate.
    intros [= Hnil]. exact (DecimalPos.Unsigned.to_uint_nonnil _ Hnil).
  - destruct i; simpl; try discriminate.
    intros [= Hnil]. exact (DecimalPos.Unsigned.to_uint_nonnil _ Hnil).
Qed.

(** Every run that passes validation sends exactly one request. *)
Lemma Exec_sends_the_request (ParseRequestURI : string -> option error)
    (Get : Request -> Response) (p : Plugin) (w : World) :
  validate ParseRequestURI (Plugin_Config p) = None ->
  requests (fst (Exec ParseRequestURI Get p w))
  = requests w ++ [request (Plugin_Config p)].
Proof.
  intros Hv. destruct (Get (request (Plugin_Config p))) as [passwords|err] eqn:Hget.
  - rewrite (Exec_fetched _ _ _ _ passwords Hv Hget).
    destruct (_ && _); simpl; [reflexivity | now rewrite outputToYaml_requests].
  - now rewrite (Exec_fetch_failed _ _ _ _ err Hv Hget).
Qed.

(** C9.  Of the list identifiers, validation refuses zero only: with an
    endpoint, an API key and a format that pass, validation succeeds
    exactly when the identifier is not zero; a negative identifier
    passes, and the request carries its decimal numeral, which reads
    back as the same integer, as the path parameter [PasswordListID]. *)
Theorem negative_list_id_reaches_the_request
    (ParseRequestURI : string -> option error) (Get : Request -> Response)
    (p : Plugin) (w : World) :
  let c := Plugin_Config p in
  ParseRequestURI (ApiEndpoint c) = None ->
  ApiKey c <> "" ->
  OutputFormat c = "YAML" ->
  (validate ParseRequestURI c = None <-> PasswordListId c <> 0)
  /\ (PasswordListId c < 0 ->
      validate ParseRequestURI c = None
      /\ requests (fst (Exec ParseRequestURI Get p w)) = requests w ++ [request c]
      /\ PathParams (request c) !! "PasswordListID"
         = Some (strconv.Itoa (PasswordListId c))
      /\ strconv.Atoi (strconv.Itoa (PasswordListId c))
         = Some (PasswordListId c)).
Proof.
  intros c Hurl Hkey Hfmt.
  assert (Hiff : validate ParseRequestURI c = None <-> PasswordListId c <> 0)
    by (rewrite validate_None; tauto).
  split; [exact Hiff|]. intros Hneg.
  assert (Hv : validate ParseRequestURI c = None) by (apply Hiff; lia).
  split; [exact Hv|].
  split; [now apply Exec_sends_the_request|].
  split; [apply lookup_singleton_eq | apply Atoi_Itoa].
Qed.

(** The list identifier [-1]. *)
Lemma negative_list_id_reaches_the_request_witness :
  PathParams (request (configOf "https://ps.example.com" (-1) "Title" "Password"))
    !! "PasswordListID"
  = Some "-1".
Proof.
  exact (proj1 (proj2 (proj2 (proj2
           (negative_list_id_reaches_the_request exampleParseRequestURI
              (serverOf exampleRecords)
              {| Plugin_Config :=
                   configOf "https://ps.example.com" (-1) "Title" "Password" |}
              emptyWorld eq_refl ltac:(discriminate) eq_refl)
           eq_refl)))).
Defined.

(** The fields of [PasswordList] that are not strings resolve to their
    placeholder, which is usable and has no space to trim. *)
Lemma placeholder_resolve (password : PasswordList) (fieldName text : string) :
  placeholder fieldName = Some text ->
  resolve password fieldName = text
  /\ (text = "<int Value>" \/ text = "<bool Value>")
  /\ usable text = true
  /\ strings.Trim text " " = text.
Proof.
  unfold placeholder.
  destruct (String.eqb_spec fieldName "PasswordID") as [->|_];
    [intros [= <-]; repeat split; now left|].
  destruct (String.eqb_spec fieldName "AccountTypeID") as [->|_];
    [intros [= <-]; repeat split; now left|].
  destruct (String.eqb_spec fieldName "AllowExport") as [->|_];
    [intros [= <-]; repeat split; now right | discriminate].
Qed.

(** A run that reaches the writer on a path that can be opened lays
    the document of its secrets over the old content. *)
Lemma Exec_over_old_content (ParseRequestURI : string -> option error)
    (Get : Request -> Response) (p : Plugin) (w : World)
    (passwords : list PasswordList) :
  let c := Plugin_Config p in
  let secrets :=
    map (secretOf (KeyField c) (ValueField c))
      (List.filter (qualifies (KeyField c) (ValueField c)) passwords) in
  let text := document (SectionName c) (EncodeSecrets c) secrets in
  validate ParseRequestURI c = None ->
  Get (request c) = Result passwords ->
  NoSecretsFail c = false
  \/ List.filter (qualifies (KeyField c) (ValueField c)) passwords <> [] ->
  openable w (OutputPath c) = true ->
  Exec ParseRequestURI Get p w
  = (written (sent w (request c)) (OutputPath c)
       (text +:+ os.skip (String.length text) (prior w (OutputPath c))),
     None).
Proof.
  intros c secrets text Hv Hget Hguard Hopen.
  rewrite (Exec_fetched _ _ p w passwords Hv Hget). fold c.
  rewrite convert_loop; simpl app. fold secrets.
  assert (Hpass : NoSecretsFail c && (length secrets =? 0)%nat = false).
  { destruct Hguard as [-> | Hsome]; [reflexivity|]. unfold secrets.
    destruct (List.filter _ passwords); [contradiction | apply andb_false_r]. }
  rewrite Hpass. fold text.
  now rewrite (outputToYaml_openable _ _ _ _ (sent w (request c)) Hopen).
Qed.

(** The lines of the records that qualify, read off the records. *)
Lemma secretLines_joined (keyField valueField : string) (encode : bool)
    (keep : PasswordList -> bool) (lineOf : PasswordList -> string)
    (passwords : list PasswordList) :
  (forall password, qualifies keyField valueField password = keep password) ->
  (forall password,
     secretLine encode (secretOf keyField valueField password) = lineOf password) ->
  List.filter (qualifies keyField valueField) passwords = List.filter keep passwords
  /\ secretLines encode
       (map (secretOf keyField valueField)
          (List.filter (qualifies keyField valueField) passwords))
     = joined (map lineOf (List.filter keep passwords)).
Proof.
  intros Hkeep Hline.
  induction passwords as [|password passwords [IHf IHl]]; [now split|].
  simpl. rewrite <- Hkeep.
  destruct (qualifies keyField valueField password); simpl;
    [|now split].
  split; [now rewrite IHf | now rewrite Hline, IHl].
Qed.

(** C10, amended.  A configured field name that refers to a field of
    the record that is not a string ([PasswordID], [AccountTypeID],
    [AllowExport]) resolves on every record to the placeholder
    ["<int Value>"] or ["<bool Value>"], which is neither empty nor
    ["<invalid Value>"]: the record is not skipped on its account, it
    contributes exactly when the other configured field resolves to a
    usable string.  When the run reaches the writer and the output file
    can be opened, the file begins with the header and one line for
    each contributing record, in order: with the placeholder as the key
    when the name is the key field; with the placeholder as the value,
    base64-encoded like any value when encoding is enabled, when the
    name is the value field. *)
Theorem nonstring_field_is_written_as_its_placeholder
    (ParseRequestURI : string -> option error) (Get : Request -> Response)
    (c : Config) (w : World) (passwords : list PasswordList) (text : string) :
  validate ParseRequestURI c = None ->
  Get (request c) = Result passwords ->
  openable w (OutputPath c) = true ->
  (placeholder (KeyField c) = Some text ->
   let kept :=
     List.filter (fun password => usable (resolve password (ValueField c)))
       passwords in
   (text = "<int Value>" \/ text = "<bool Value>")
   /\ usable text = true
   /\ (forall password : PasswordList,
         resolve password (KeyField c) = text
         /\ qualifies (KeyField c) (ValueField c) password
            = usable (resolve password (ValueField c)))
   /\ (NoSecretsFail c = false \/ kept <> [] ->
       exists tail : string,
         Exec ParseRequestURI Get {| Plugin_Config := c |} w
         = (written (sent w (request c)) (OutputPath c)
              (header (SectionName c)
               +:+ joined
                     (map (fun password =>
                             line text
                               (quoted (EncodeSecrets c)
                                  (resolve password (ValueField c))))
                        kept)
               +:+ tail),
            None)))
  /\ (placeholder (ValueField c) = Some text ->
      let kept :=
        List.filter (fun password => usable (resolve password (KeyField c)))
          passwords in
      (text = "<int Value>" \/ text = "<bool Value>")
      /\ usable text = true
      /\ (forall password : PasswordList,
            resolve password (ValueField c) = text
            /\ qualifies (KeyField c) (ValueField c) password
               = usable (resolve password (KeyField c)))
      /\ (NoSecretsFail c = false \/ kept <> [] ->
          exists tail : string,
            Exec ParseRequestURI Get {| Plugin_Config := c |} w
            = (written (sent w (request c)) (OutputPath c)
                 (header (SectionName c)
                  +:+ joined
                        (map (fun password =>
                                line
                                  (strings.Trim (resolve password (KeyField c)) " ")
                                  (if EncodeSecrets c
                                   then base64.EncodeToString text
                                   else text))
                           kept)
                  +:+ tail),
               None))).
Proof.
  intros Hv Hget Hopen. split; intros Hph kept.
  - assert (Hall : forall password, resolve password (KeyField c) = text
                                    /\ usable text = true
                                    /\ strings.Trim text " " = text).
    { intros password.
      destruct (placeholder_resolve password _ _ Hph) as (? & _ & ? & ?).
      now repeat split. }
    destruct (placeholder_resolve zeroPasswordList _ _ Hph) as (_ & Hkind & Huse & _).
    assert (Hq : forall password,
               qualifies (KeyField c) (ValueField c) password
               = usable (resolve password (ValueField c))).
    { intros password. unfold qualifies.
      destruct (Hall password) as (-> & -> & _). reflexivity. }
    split; [exact Hkind|]. split; [exact Huse|].
    split; [intros password; split; [apply Hall | apply Hq]|].
    intros Hguard.
    destruct (secretLines_joined (KeyField c) (ValueField c) (EncodeSecrets c)
                (fun password => usable (resolve password (ValueField c)))
                (fun password =>
                   line text
                     (quoted (EncodeSecrets c) (resolve password (ValueField c))))
                passwords Hq) as [Hfilter Hlines].
    { intros password. unfold secretLine, secretOf, quoted; simpl Key; simpl Value.
      destruct (Hall password) as (-> & _ & ->). reflexivity. }
    eexists.
    rewrite (Exec_over_old_content _ _ {| Plugin_Config := c |} w passwords
               Hv Hget); simpl Plugin_Config;
      [|rewrite Hfilter; exact Hguard | exact Hopen].
    unfold document. rewrite Hlines. fold kept.
    rewrite (append_assoc (header (SectionName c))). reflexivity.
  - assert (Hall : forall password, resolve password (ValueField c) = text
                                    /\ usable text = true
                                    /\ strings.Trim text " " = text).
    { intros password.
      destruct (placeholder_resolve password _ _ Hph) as (? & _ & ? & ?).
      now repeat split. }
    destruct (placeholder_resolve zeroPasswordList _ _ Hph) as (_ & Hkind & Huse & _).
    assert (Hq : forall password,
               qualifies (KeyField c) (ValueField c) password
               = usable (resolve password (KeyField c))).
    { intros password. unfold qualifies.
      destruct (Hall password) as (-> & -> & _). apply andb_true_r. }
    split; [exact Hkind|]. split; [exact Huse|].
    split; [intros password; split; [apply Hall | apply Hq]|].
    intros Hguard.
    destruct (secretLines_joined (KeyField c) (ValueField c) (EncodeSecrets c)
                (fun password => usable (resolve password (KeyField c)))
                (fun password =>
                   line (strings.Trim (resolve password (KeyField c)) " ")
                     (if EncodeSecrets c then base64.EncodeToString text
                      else text))
                passwords Hq) as [Hfilter Hlines].
    { intros password. unfold secretLine, secretOf; simpl Key; simpl Value.
      destruct (Hall password) as (-> & _ & ->). reflexivity. }
    eexists.
    rewrite (Exec_over_old_content _ _ {| Plugin_Config := c |} w passwords
               Hv Hget); simpl Plugin_Config;
      [|rewrite Hfilter; exact Hguard | exact Hopen].
    unfold document. rewrite Hlines. fold kept.
    rewrite (append_assoc (header (SectionName c))). reflexivity.
Qed.

(** The two records of the example with [PasswordID] as the key field,
    over a file of forty bytes. *)
Lemma nonstring_field_is_written_as_its_placeholder_witness :
  exists tail : string,
    Exec exampleParseRequestURI (serverOf exampleRecords)
      {| Plugin_Config :=
           configOf "https://ps.example.com" 42 "PasswordID" "Password" |}
      (worldWith "secrets.yml"
         (Regular "0123456789012345678901234567890123456789"))
    = (written
         (sent (worldWith "secrets.yml"
                  (Regular "0123456789012345678901234567890123456789"))
            (request (configOf "https://ps.example.com" 42 "PasswordID" "Password")))
         "secrets.yml"
         (header "secrets"
          +:+ joined [line "<int Value>" "p@ss"; line "<int Value>" "x"]
          +:+ tail),
       None).
Proof.
  exact (proj2 (proj2 (proj2 (proj1
           (nonstring_field_is_written_as_its_placeholder
              exampleParseRequestURI (serverOf exampleRecords)
              (configOf "https://ps.example.com" 42 "PasswordID" "Password")
              (worldWith "secrets.yml"
                 (Regular "0123456789012345678901234567890123456789"))
              exampleRecords "<int Value>" eq_refl eq_refl eq_refl)
           eq_refl))) (or_introl eq_refl)).
Defined.

(** C10 as stated fails.  With encoding enabled and [AllowExport] as
    the value field, what is written as the value is the base64 text of
    the placeholder, not the placeholder; and with [PasswordID] as the
    key field, a record whose value field is empty is skipped although
    its key is the placeholder. *)
Lemma placeholder_is_encoded_or_its_record_skipped :
  Exec exampleParseRequestURI (serverOf [titled "db" "p@ss"])
    {| Plugin_Config :=
         encodedConfigOf "https://ps.example.com" 42 "Title" "AllowExport" |}
    emptyWorld
  = (written
       (sent emptyWorld
          (request (encodedConfigOf "https://ps.example.com" 42 "Title" "AllowExport")))
       "secrets.yml"
       ("---" +:+ LF +:+ "secrets:" +:+ LF +:+ "  db: 'PGJvb2wgVmFsdWU+'" +:+ LF),
     None)
  /\ "PGJvb2wgVmFsdWU+" <> "<bool Value>"
  /\ resolve (titled "" "x") "PasswordID" = "<int Value>"
  /\ getSecrets (serverOf [titled "" "x"])
       {| Plugin_Config :=
            configOf "https://ps.example.com" 42 "PasswordID" "Title" |}
       emptyWorld
     = (sent emptyWorld
          (request (configOf "https://ps.example.com" 42 "PasswordID" "Title")),
        inl []).
Proof. repeat split; vm_compute; try reflexivity; discriminate. Qed.

(** ** Further properties of the writer *)

Lemma skip_append (a t : string) : os.skip (String.length a) (a +:+ t) = t.
Proof.
  induction a as [|x a IH]; [reflexivity|].
  rewrite append_cons; simpl. exact IH.
Qed.

Lemma length_skip (n : nat) (s : string) :
  String.length (os.skip n s) = (String.length s - n)%nat.
Proof.
  revert s; induction n as [|n IH]; intros [|c s]; simpl;
    try reflexivity; apply IH.
Qed.

Lemma written_written (w : World) (filename a b : string) :
  written (written w filename a) filename b = written w filename b.
Proof. unfold written; simpl. now rewrite insert_insert_eq. Qed.

Lemma openable_written (w : World) (filename content : string) :
  openable (written w filename content) filename = true
  /\ prior (written w filename content) filename = content.
Proof.
  unfold openable, prior, written; simpl. now rewrite lookup_insert_eq.
Qed.

(** Writing the same secrets a second time changes nothing. *)
Lemma outputToYaml_again (filename section : string) (encode : bool)
    (secrets : list Secret) (w : World) :
  outputToYaml filename section encode secrets
    (fst (outputToYaml filename section encode secrets w))
  = outputToYaml filename section encode secrets w.
Proof.
  destruct (openable_cases w filename) as [Hopen | [err Hfile]].
  - rewrite (outputToYaml_openable _ _ _ _ w Hopen); simpl.
    destruct (openable_written w filename
                (document section encode secrets
                 +:+ os.skip (String.length (document section encode secrets))
                       (prior w filename))) as [Hopen' Hprior'].
    rewrite (outputToYaml_openable _ _ _ _ _ Hopen'), Hprior'.
    now rewrite skip_append, written_written.
  - rewrite (outputToYaml_unopenable _ _ _ _ _ err Hfile); simpl.
    now apply outputToYaml_unopenable.
Qed.

Lemma outputToYaml_other_path (filename section : string)
    (encode : bool) (secrets : list Secret) (w : World) (other : string) :
  other <> filename ->
  files (fst (outputToYaml filename section encode secrets w)) !! other
  = files w !! other.
Proof.
  intros Hother.
  destruct (openable_cases w filename) as [Hopen | [err Hfile]].
  - rewrite (outputToYaml_openable _ _ _ _ w Hopen); simpl.
    now rewrite lookup_insert_ne.
  - now rewrite (outputToYaml_unopenable _ _ _ _ _ err Hfile).
Qed.

Lemma skip_past_append (n : nat) (a t : string) :
  (String.length a <= n)%nat ->
  os.skip n (a +:+ os.skip (String.length a) t) = os.skip n t.
Proof.
  intros Hlen.
  replace n with (String.length a + (n - String.length a))%nat at 1 by lia.
  rewrite <- skip_skip, skip_append, skip_skip. f_equal. lia.
Qed.

(** A run of [outputToYaml] whose document is at least as long as the
    document of the run before it leaves no trace of that run: the
    result is the one of the later run alone.  (A shorter document
    leaves the end of the earlier one in the file.) *)
Theorem outputToYaml_covers_a_shorter_document (filename : string)
    (section1 section2 : string) (encode1 encode2 : bool)
    (secrets1 secrets2 : list Secret) (w : World) :
  (String.length (document section1 encode1 secrets1)
   <= String.length (document section2 encode2 secrets2))%nat ->
  outputToYaml filename section2 encode2 secrets2
    (fst (outputToYaml filename section1 encode1 secrets1 w))
  = outputToYaml filename section2 encode2 secrets2 w.
Proof.
  intros Hlen.
  destruct (openable_cases w filename) as [Hopen | [err Hfile]].
  - rewrite (outputToYaml_openable _ section1 _ _ w Hopen); simpl fst.
    destruct (openable_written w filename
                (document section1 encode1 secrets1
                 +:+ os.skip (String.length (document section1 encode1 secrets1))
                       (prior w filename))) as [Hopen' Hprior'].
    rewrite (outputToYaml_openable _ section2 _ _ _ Hopen'), Hprior'.
    rewrite (outputToYaml_openable _ section2 _ _ w Hopen).
    now rewrite skip_past_append, written_written.
  - rewrite (outputToYaml_unopenable _ section1 _ _ _ err Hfile); simpl.
    reflexivity.
Qed.

(** The example written after a run that found no secret. *)
Lemma outputToYaml_covers_a_shorter_document_witness :
  outputToYaml "secrets.yml" "secrets" false
    [ {| Key := "db"; Value := "p@ss" |} ]
    (fst (outputToYaml "secrets.yml" "secrets" false [] emptyWorld))
  = outputToYaml "secrets.yml" "secrets" false
      [ {| Key := "db"; Value := "p@ss" |} ] emptyWorld.
Proof.
  apply outputToYaml_covers_a_shorter_document. vm_compute. lia.
Defined.

(** [outputToYaml] touches the output path only: every other path of
    the file system is as it was, and nothing is sent. *)
Theorem outputToYaml_leaves_other_paths (filename section : string)
    (encode : bool) (secrets : list Secret) (w : World) (other : string) :
  other <> filename ->
  files (fst (outputToYaml filename section encode secrets w)) !! other
  = files w !! other
  /\ requests (fst (outputToYaml filename section encode secrets w))
     = requests w.
Proof.
  intros Hother.
  split; [now apply outputToYaml_other_path | apply outputToYaml_requests].
Qed.

(** Another file next to the output file stays as it is. *)
Lemma outputToYaml_leaves_other_paths_witness :
  files (fst (outputToYaml "secrets.yml" "secrets" false
                [ {| Key := "db"; Value := "p@ss" |} ]
                (worldWith "notes.txt" (Regular "keep")))) !! "notes.txt"
  = Some (Regular "keep").
Proof.
  exact (proj1 (outputToYaml_leaves_other_paths "secrets.yml" "secrets" false
                  [ {| Key := "db"; Value := "p@ss" |} ]
                  (worldWith "notes.txt" (Regular "keep")) "notes.txt"
                  ltac:(discriminate))).
Defined.

(** On a path that can be opened, the file after [outputToYaml] begins
    with the document and goes on with the old content from the
    document's length on; so its length is the larger of the two
    lengths, and the file is never shorter than before. *)
Theorem outputToYaml_never_shortens (filename section : string)
    (encode : bool) (secrets : list Secret) (w : World) :
  openable w filename = true ->
  exists content : string,
    files (fst (outputToYaml filename section encode secrets w)) !! filename
    = Some (Regular content)
    /\ content
       = document section encode secrets
         +:+ os.skip (String.length (document section encode secrets))
               (prior w filename)
    /\ String.length content
       = Nat.max (String.length (document section encode secrets))
           (String.length (prior w filename)).
Proof.
  intros Hopen. eexists. rewrite (outputToYaml_openable _ _ _ _ w Hopen).
  split; [apply lookup_insert_eq|]. split; [reflexivity|].
  rewrite (length_append (document section encode secrets)), length_skip.
  lia.
Qed.

(** A file of forty bytes over which a shorter document is written. *)
Lemma outputToYaml_never_shortens_witness :
  exists content : string,
    files (fst (outputToYaml "secrets.yml" "s" false []
                  (worldWith "secrets.yml"
                     (Regular "0123456789012345678901234567890123456789"))))
      !! "secrets.yml"
    = Some (Regular content)
    /\ content
       = document "s" false []
         +:+ os.skip (String.length (document "s" false []))
               (prior (worldWith "secrets.yml"
                         (Regular "0123456789012345678901234567890123456789"))
                  "secrets.yml")
    /\ String.length content
       = Nat.max (String.length (document "s" false []))
           (String.length
              (prior (worldWith "secrets.yml"
                        (Regular "0123456789012345678901234567890123456789"))
                 "secrets.yml")).
Proof.
  exact (outputToYaml_never_shortens "secrets.yml" "s" false []
           (worldWith "secrets.yml"
              (Regular "0123456789012345678901234567890123456789"))
           eq_refl).
Defined.

(** [outputToYaml] returns an error exactly when the path cannot be
    opened, the error is that of [os.OpenFile], and then the world is
    as it was. *)
Theorem outputToYaml_fails_only_on_open (filename section : string)
    (encode : bool) (secrets : list Secret) (w : World) (err : error) :
  (snd (outputToYaml filename section encode secrets w) = Some err
   <-> files w !! filename = Some (Unopenable err))
  /\ (snd (outputToYaml filename section encode secrets w) = Some err ->
      fst (outputToYaml filename section encode secrets w) = w).
Proof.
  assert (Hiff : snd (outputToYaml filename section encode secrets w) = Some err
                 <-> files w !! filename = Some (Unopenable err)).
  { destruct (openable_cases w filename) as [Hopen | [err' Hfile]].
    - rewrite (outputToYaml_openable _ _ _ _ w Hopen); simpl.
      split; [discriminate|]. intros Hfile. unfold openable in Hopen.
      now rewrite Hfile in Hopen.
    - rewrite (outputToYaml_unopenable _ _ _ _ _ err' Hfile), Hfile; simpl.
      split; now intros [= ->]. }
  split; [exact Hiff|]. intros Herr. apply Hiff in Herr.
  now rewrite (outputToYaml_unopenable _ _ _ _ _ err Herr).
Qed.

(** ** Further properties of the execution *)

(** What [outputToYaml] does to the files and what it returns depend on
    the files only. *)
Lemma outputToYaml_files_only (filename section : string) (encode : bool)
    (secrets : list Secret) (w1 w2 : World) :
  files w1 = files w2 ->
  files (fst (outputToYaml filename section encode secrets w1))
  = files (fst (outputToYaml filename section encode secrets w2))
  /\ snd (outputToYaml filename section encode secrets w1)
     = snd (outputToYaml filename section encode secrets w2).
Proof.
  destruct w1 as [fs r1], w2 as [fs2 r2]; simpl; intros <-.
  destruct (openable_cases {| files := fs; requests := r1 |} filename)
    as [Hopen | [err Hfile]].
  - rewrite (outputToYaml_openable _ _ _ _ {| files := fs; requests := r1 |} Hopen),
            (outputToYaml_openable _ _ _ _ {| files := fs; requests := r2 |} Hopen).
    now split.
  - rewrite (outputToYaml_unopenable _ _ _ _
               {| files := fs; requests := r1 |} err Hfile),
            (outputToYaml_unopenable _ _ _ _
               {| files := fs; requests := r2 |} err Hfile).
    now split.
Qed.

(** The secrets are as many as the records that qualify. *)
Lemma no_secret_iff (keyField valueField : string)
    (passwords : list PasswordList) :
  (length (fold_left (convert keyField valueField) passwords []) =? 0)%nat = true
  <-> List.filter (qualifies keyField valueField) passwords = [].
Proof.
  rewrite convert_loop, Nat.eqb_eq; simpl.
  destruct (List.filter (qualifies keyField valueField) passwords); simpl;
    split; (reflexivity || discriminate).
Qed.

(** [Exec] returns no error exactly when validation passes, the fetch
    succeeds and, if the fail-on-empty flag is set, some record
    qualifies.  The file system has no part in it: the error [Exec]
    returns is the same in every world. *)
Theorem Exec_succeeds_iff
    (ParseRequestURI : string -> option error) (Get : Request -> Response)
    (p : Plugin) (w : World) :
  let c := Plugin_Config p in
  (snd (Exec ParseRequestURI Get p w) = None
   <-> validate ParseRequestURI c = None
       /\ exists passwords : list PasswordList,
            Get (request c) = Result passwords
            /\ (NoSecretsFail c = false
                \/ List.filter (qualifies (KeyField c) (ValueField c)) passwords
                   <> []))
  /\ forall w' : World,
       snd (Exec ParseRequestURI Get p w') = snd (Exec ParseRequestURI Get p w).
Proof.
  intros c.
  destruct (validate ParseRequestURI c) as [err|] eqn:Hv.
  { split.
    - rewrite (Exec_invalid _ Get p w err Hv); simpl.
      split; [discriminate | now intros [? _]].
    - intros w'.
      now rewrite (Exec_invalid _ Get p w err Hv), (Exec_invalid _ Get p w' err Hv). }
  destruct (Get (request c)) as [passwords|err] eqn:Hget.
  2:{ split.
      - rewrite (Exec_fetch_failed _ _ p w err Hv Hget); simpl.
        split; [discriminate | now intros (_ & passwords & ? & _)].
      - intros w'.
        now rewrite (Exec_fetch_failed _ _ p w err Hv Hget),
                    (Exec_fetch_failed _ _ p w' err Hv Hget). }
  split.
  - rewrite (Exec_fetched _ _ p w passwords Hv Hget). fold c.
    destruct (NoSecretsFail c); simpl.
    + destruct (length _ =? 0)%nat eqn:Hlen; simpl.
      * apply no_secret_iff in Hlen. split; [discriminate|].
        intros (_ & passwords' & [= <-] & [? | Hsome]);
          [discriminate | contradiction].
      * split; [intros _ | reflexivity]. split; [reflexivity|].
        exists passwords. split; [reflexivity | right].
        intros Hnone. apply no_secret_iff in Hnone. congruence.
    + split; [intros _ | reflexivity]. split; [reflexivity|].
      exists passwords. split; [reflexivity | now left].
  - intros w'.
    rewrite (Exec_fetched _ _ p w passwords Hv Hget),
            (Exec_fetched _ _ p w' passwords Hv Hget).
    now destruct (_ && _).
Qed.

(** When the fetch fails, [Exec] returns the error of [Get], which it
    has called once, with the request of the configuration (the retries
    the client makes for that call are inside [Get]), and no file is
    created or changed. *)
Theorem Exec_passes_on_the_fetch_error
    (ParseRequestURI : string -> option error) (Get : Request -> Response)
    (p : Plugin) (w : World) (err : error) :
  let c := Plugin_Config p in
  validate ParseRequestURI c = None ->
  Get (request c) = GetFailed err ->
  snd (Exec ParseRequestURI Get p w) = Some err
  /\ files (fst (Exec ParseRequestURI Get p w)) = files w
  /\ requests (fst (Exec ParseRequestURI Get p w)) = requests w ++ [request c].
Proof.
  intros c Hv Hget. rewrite (Exec_fetch_failed _ _ p w err Hv Hget).
  now repeat split.
Qed.

(** A server that cannot be reached. *)
Lemma Exec_passes_on_the_fetch_error_witness :
  snd (Exec exampleParseRequestURI (unreachable (resty_Error "connection refused"))
         {| Plugin_Config := exampleConfig false false |} emptyWorld)
  = Some (resty_Error "connection refused").
Proof.
  exact (proj1 (Exec_passes_on_the_fetch_error exampleParseRequestURI
                  (unreachable (resty_Error "connection refused"))
                  {| Plugin_Config := exampleConfig false false |} emptyWorld
                  (resty_Error "connection refused") eq_refl eq_refl)).
Defined.

(** The empty guard.  In a run that passes validation and extracts no
    secret: with the fail-on-empty flag set, [Exec] returns the error
    "no secrets were retrieved from PasswordState" and the files are as
    they were, the writer is not reached; with the flag unset, [Exec]
    returns no error, and on a path that can be opened the header and
    the empty section are laid over the head of the output file. *)
Theorem Exec_stops_at_the_empty_guard
    (ParseRequestURI : string -> option error) (Get : Request -> Response)
    (p : Plugin) (w : World) :
  let c := Plugin_Config p in
  validate ParseRequestURI c = None ->
  snd (getSecrets Get p w) = inl [] ->
  (NoSecretsFail c = true ->
     Exec ParseRequestURI Get p w
     = (sent w (request c),
        Some (errorString "no secrets were retrieved from PasswordState"))
     /\ files (fst (Exec ParseRequestURI Get p w)) = files w)
  /\ (NoSecretsFail c = false ->
        snd (Exec ParseRequestURI Get p w) = None
        /\ (openable w (OutputPath c) = true ->
            files (fst (Exec ParseRequestURI Get p w)) !! OutputPath c
            = Some (Regular
                      (header (SectionName c)
                       +:+ os.skip (String.length (header (SectionName c)))
                             (prior w (OutputPath c)))))).
Proof.
  intros c Hv Hnone. unfold getSecrets in Hnone. fold c in Hnone.
  destruct (Get (request c)) as [passwords|err] eqn:Hget; [|discriminate].
  injection Hnone as Hnone.
  rewrite (Exec_fetched _ _ p w passwords Hv Hget). fold c. rewrite Hnone.
  split; intros ->; simpl; [now split|].
  split; [reflexivity|]. intros Hopen.
  rewrite (outputToYaml_openable _ _ _ _ (sent w (request c)) Hopen).
  unfold document; simpl secretLines. rewrite append_nil_r.
  apply lookup_insert_eq.
Qed.

(** The fail-on-empty flag set and a single record without title. *)
Lemma Exec_stops_at_the_empty_guard_witness :
  Exec exampleParseRequestURI (serverOf [titled "" "x"])
    {| Plugin_Config := exampleConfig false true |} emptyWorld
  = (sent emptyWorld (request (exampleConfig false true)),
     Some (errorString "no secrets were retrieved from PasswordState"))
  /\ files (fst (Exec exampleParseRequestURI (serverOf [titled "" "x"])
                   {| Plugin_Config := exampleConfig false true |} emptyWorld))
     = files emptyWorld.
Proof.
  exact (proj1 (Exec_stops_at_the_empty_guard exampleParseRequestURI
                  (serverOf [titled "" "x"])
                  {| Plugin_Config := exampleConfig false true |} emptyWorld
                  eq_refl eq_refl) eq_refl).
Defined.

(** Whatever the configuration, the API and the outcome, [Exec] leaves
    every path other than the output path as it was. *)
Theorem Exec_leaves_other_paths
    (ParseRequestURI : string -> option error) (Get : Request -> Response)
    (p : Plugin) (w : World) (other : string) :
  other <> OutputPath (Plugin_Config p) ->
  files (fst (Exec ParseRequestURI Get p w)) !! other = files w !! other.
Proof.
  intros Hother.
  destruct (validate ParseRequestURI (Plugin_Config p)) as [err|] eqn:Hv;
    [now rewrite (Exec_invalid _ Get p w err Hv)|].
  destruct (Get (request (Plugin_Config p))) as [passwords|err] eqn:Hget;
    [|now rewrite (Exec_fetch_failed _ _ p w err Hv Hget)].
  rewrite (Exec_fetched _ _ p w passwords Hv Hget).
  destruct (_ && _); simpl fst; [reflexivity|].
  now rewrite outputToYaml_other_path.
Qed.

(** A file next to the output file survives the run of the example. *)
Lemma Exec_leaves_other_paths_witness :
  files (fst (Exec exampleParseRequestURI (serverOf exampleRecords)
                {| Plugin_Config := exampleConfig false false |}
                (worldWith "notes.txt" (Regular "keep")))) !! "notes.txt"
  = Some (Regular "keep").
Proof.
  exact (Exec_leaves_other_paths exampleParseRequestURI (serverOf exampleRecords)
           {| Plugin_Config := exampleConfig false false |}
           (worldWith "notes.txt" (Regular "keep")) "notes.txt"
           ltac:(discriminate)).
Defined.

(** Running the plugin again with the same configuration and the same
    answer of the API leaves the files as the first run left them:
    nothing accumulates in the output file. *)
Theorem Exec_twice_same_files
    (ParseRequestURI : string -> option error) (Get : Request -> Response)
    (p : Plugin) (w : World) :
  files (fst (Exec ParseRequestURI Get p (fst (Exec ParseRequestURI Get p w))))
  = files (fst (Exec ParseRequestURI Get p w))
  /\ snd (Exec ParseRequestURI Get p (fst (Exec ParseRequestURI Get p w)))
     = snd (Exec ParseRequestURI Get p w).
Proof.
  destruct (validate ParseRequestURI (Plugin_Config p)) as [err|] eqn:Hv;
    [now rewrite !(Exec_invalid _ Get p _ err Hv)|].
  destruct (Get (request (Plugin_Config p))) as [passwords|err] eqn:Hget;
    [|now rewrite !(Exec_fetch_failed _ _ p _ err Hv Hget)].
  rewrite !(Exec_fetched _ _ p _ passwords Hv Hget).
  destruct (_ && _); simpl; [now split | split; [|reflexivity]].
  match goal with
  | |- files (fst (outputToYaml ?f ?s ?e ?l (sent (fst ?o) ?r))) = _ =>
      rewrite (proj1 (outputToYaml_files_only f s e l (sent (fst o) r) (fst o)
                        eq_refl))
  end.
  now rewrite outputToYaml_again.
Qed.

(** ** Further properties of the projection *)

(** No secret has an empty or invalid key or value, and there are never
    more secrets than records. *)
Theorem getSecrets_secrets_are_usable (Get : Request -> Response) (p : Plugin)
    (w : World) (secrets : list Secret) :
  snd (getSecrets Get p w) = inl secrets ->
  (forall secret : Secret,
     In secret secrets ->
     (Key secret <> "" /\ Key secret <> "<invalid Value>")
     /\ (Value secret <> "" /\ Value secret <> "<invalid Value>"))
  /\ exists passwords : list PasswordList,
       Get (request (Plugin_Config p)) = Result passwords
       /\ (length secrets <= length passwords)%nat.
Proof.
  unfold getSecrets.
  destruct (Get (request (Plugin_Config p))) as [passwords|err];
    [|discriminate].
  simpl. rewrite convert_loop. simpl. intros [= <-]. split.
  - intros secret Hin. apply in_map_iff in Hin as (password & <- & Hin).
    apply filter_In in Hin as [_ Hq]. unfold qualifies in Hq.
    apply andb_true_iff in Hq as [Hkey Hvalue].
    apply usable_spec in Hkey, Hvalue. split; [exact Hkey | exact Hvalue].
  - exists passwords. split; [reflexivity|].
    rewrite length_map. apply filter_length_le.
Qed.

(** The secrets of the example. *)
Lemma getSecrets_secrets_are_usable_witness :
  (forall secret : Secret,
     In secret [ {| Key := "db"; Value := "p@ss" |} ] ->
     (Key secret <> "" /\ Key secret <> "<invalid Value>")
     /\ (Value secret <> "" /\ Value secret <> "<invalid Value>"))
  /\ exists passwords : list PasswordList,
       serverOf exampleRecords (request (exampleConfig false false))
       = Result passwords
       /\ (length [ {| Key := "db"; Value := "p@ss" |} ] <= length passwords)%nat.
Proof.
  exact (getSecrets_secrets_are_usable (serverOf exampleRecords)
           {| Plugin_Config := exampleConfig false false |} emptyWorld
           [ {| Key := "db"; Value := "p@ss" |} ] eq_refl).
Defined.

Lemma In_existsb (x : string) (l : list string) :
  In x l <-> existsb (String.eqb x) l = true.
Proof.
  rewrite existsb_exists. split.
  - intros Hin. exists x. split; [exact Hin | apply String.eqb_refl].
  - intros (y & Hin & Heq). apply String.eqb_eq in Heq. now subst.
Qed.

(** A name is the name of a field of [PasswordList] exactly when
    [FieldByName] finds a field for it. *)
Lemma FieldByName_known (password : PasswordList) (fieldName : string) :
  In fieldName fieldNames
  <-> reflect.FieldByName password fieldName <> reflect.Invalid.
Proof.
  rewrite In_existsb.
  unfold reflect.FieldByName, fieldNames. cbv beta iota delta [existsb].
  repeat (match goal with
          | |- context [String.eqb fieldName ?known] =>
              destruct (String.eqb fieldName known)
          end;
          [split; [intros _ Hfound; discriminate Hfound | reflexivity]
          | cbv beta iota delta [orb]]).
  split; [discriminate | intros Hfound; now destruct Hfound].
Qed.

(** A configured field name that is not, letter for letter, the name of
    a field of [PasswordList] makes every record unusable: whatever the
    API returns, [getSecrets] returns no secret and no error. *)
Theorem unknown_field_name_gives_no_secret (Get : Request -> Response)
    (p : Plugin) (w : World) (passwords : list PasswordList) :
  let c := Plugin_Config p in
  ~ In (KeyField c) fieldNames \/ ~ In (ValueField c) fieldNames ->
  Get (request c) = Result passwords ->
  (forall password : PasswordList,
     qualifies (KeyField c) (ValueField c) password = false)
  /\ getSecrets Get p w = (sent w (request c), inl []).
Proof.
  intros c Hunknown Hget.
  assert (Hq : forall password, qualifies (KeyField c) (ValueField c) password = false).
  { intros password. unfold qualifies, resolve.
    destruct Hunknown as [Hk | Hv].
    - destruct (reflect.FieldByName password (KeyField c)) eqn:Hf;
        [reflexivity | exfalso; apply Hk, (FieldByName_known password); congruence..].
    - destruct (reflect.FieldByName password (ValueField c)) eqn:Hf;
        [apply andb_false_r
        | exfalso; apply Hv, (FieldByName_known password); congruence..]. }
  split; [exact Hq|].
  unfold getSecrets. fold c. rewrite Hget, convert_loop.
  replace (List.filter _ passwords) with (@nil PasswordList); [reflexivity|].
  clear Hget. induction passwords as [|password passwords IH]; simpl;
    [reflexivity | now rewrite Hq].
Qed.

Lemma lowercase_title_is_no_field : ~ In "title" fieldNames.
Proof. rewrite In_existsb. vm_compute. discriminate. Qed.

(** The key field spelt [title] instead of [Title]. *)
Lemma unknown_field_name_gives_no_secret_witness :
  getSecrets (serverOf exampleRecords)
    {| Plugin_Config := configOf "https://ps.example.com" 42 "title" "Password" |}
    emptyWorld
  = (sent emptyWorld
       (request (configOf "https://ps.example.com" 42 "title" "Password")),
     inl []).
Proof.
  exact (proj2 (unknown_field_name_gives_no_secret (serverOf exampleRecords)
                  {| Plugin_Config :=
                       configOf "https://ps.example.com" 42 "title" "Password" |}
                  emptyWorld exampleRecords
                  (or_introl lowercase_title_is_no_field) eq_refl)).
Defined.

(** With a key field that is not a string, every secret has the same
    key, the placeholder; likewise for the value field. *)
Theorem placeholder_is_shared_by_all_secrets (Get : Request -> Response)
    (p : Plugin) (w : World) (secrets : list Secret) (text : string) :
  let c := Plugin_Config p in
  snd (getSecrets Get p w) = inl secrets ->
  (placeholder (KeyField c) = Some text ->
   forall secret : Secret, In secret secrets -> Key secret = text)
  /\ (placeholder (ValueField c) = Some text ->
      forall secret : Secret, In secret secrets -> Value secret = text).
Proof.
  intros c. unfold getSecrets. fold c.
  destruct (Get (request c)) as [passwords|err]; [|discriminate].
  simpl. rewrite convert_loop. simpl. intros [= <-].
  split; intros Hph secret Hin;
    apply in_map_iff in Hin as (password & <- & _); simpl;
    now destruct (placeholder_resolve password _ _ Hph) as [-> _].
Qed.

(** Two records and the key field [PasswordID]. *)
Lemma placeholder_is_shared_by_all_secrets_witness :
  List.Forall (fun secret : Secret => Key secret = "<int Value>")
    [ {| Key := "<int Value>"; Value := "p@ss" |};
      {| Key := "<int Value>"; Value := "x" |} ].
Proof.
  apply List.Forall_forall.
  exact (proj1 (placeholder_is_shared_by_all_secrets (serverOf exampleRecords)
                  {| Plugin_Config :=
                       configOf "https://ps.example.com" 42 "PasswordID" "Password" |}
                  emptyWorld
                  [ {| Key := "<int Value>"; Value := "p@ss" |};
                    {| Key := "<int Value>"; Value := "x" |} ]
                  "<int Value>" eq_refl) eq_refl).
Defined.

Lemma Trim_only_spaces (n : nat) : strings.Trim (spaces n) " " = "".
Proof.
  unfold strings.Trim.
  rewrite <- (append_nil_r (spaces n)), TrimLeft_skips_spaces. reflexivity.
Qed.

(** The emptiness test of [getSecrets] comes before the trimming of
    [outputToYaml]: a record whose key field holds spaces only is not
    skipped, and its line is written with an empty key. *)
Theorem blank_key_is_written_empty (keyField valueField : string)
    (password : PasswordList) (n : nat) (encode : bool) :
  resolve password keyField = spaces (S n) ->
  usable (resolve password valueField) = true ->
  qualifies keyField valueField password = true
  /\ secretLine encode (secretOf keyField valueField password)
     = line ""
         (let value := strings.Trim (resolve password valueField) " " in
          if encode then base64.EncodeToString value else value).
Proof.
  intros Hkey Hvalue. split.
  - unfold qualifies. now rewrite Hkey, Hvalue.
  - unfold secretLine, secretOf; simpl Key; simpl Value.
    now rewrite Hkey, Trim_only_spaces.
Qed.

(** A record whose title is one space. *)
Lemma blank_key_is_written_empty_witness :
  secretLine false (secretOf "Title" "Password" (titled " " "x"))
  = "  : 'x'" +:+ LF.
Proof.
  exact (proj2 (blank_key_is_written_empty "Title" "Password" (titled " " "x")
                  O false eq_refl eq_refl)).
Defined.

(** Trimming what is already trimmed changes nothing. *)
Lemma Trim_Trim (s : string) :
  strings.Trim (strings.Trim s " ") " " = strings.Trim s " ".
Proof.
  symmetry. apply spaceTrimmed_unique.
  destruct (Trim_spaceTrimmed s) as (_ & Hhead & Hlast).
  split; [|now split]. exists O, O. simpl. now rewrite append_nil_r.
Qed.

(** The line of a secret does not change when the key and the value
    are trimmed beforehand: only the text between the outer spaces
    reaches the file. *)
Theorem secretLine_of_trimmed_secret (encode : bool) (secret : Secret) :
  secretLine encode
    {| Key := strings.Trim (Key secret) " ";
       Value := strings.Trim (Value secret) " " |}
  = secretLine encode secret.
Proof. unfold secretLine; simpl. now rewrite !Trim_Trim. Qed.

(** The whole run on an output path that can be opened: the file begins
    with the document of the records that qualify, in the order of the
    API's answer, goes on with what the old content has beyond the
    document's length, and [Exec] returns no error. *)
Theorem Exec_writes_the_qualifying_records
    (ParseRequestURI : string -> option error) (Get : Request -> Response)
    (p : Plugin) (w : World) (passwords : list PasswordList) :
  let c := Plugin_Config p in
  let secrets :=
    map (secretOf (KeyField c) (ValueField c))
      (List.filter (qualifies (KeyField c) (ValueField c)) passwords) in
  let text := document (SectionName c) (EncodeSecrets c) secrets in
  validate ParseRequestURI c = None ->
  Get (request c) = Result passwords ->
  NoSecretsFail c = false \/ secrets <> [] ->
  openable w (OutputPath c) = true ->
  Exec ParseRequestURI Get p w
  = (written (sent w (request c)) (OutputPath c)
       (text +:+ os.skip (String.length text) (prior w (OutputPath c))),
     None).
Proof.
  intros c secrets text Hv Hget Hguard Hopen.
  rewrite (Exec_fetched _ _ p w passwords Hv Hget). fold c.
  rewrite convert_loop; simpl app. fold secrets.
  assert (Hpass : NoSecretsFail c && (length secrets =? 0)%nat = false).
  { destruct Hguard as [-> | Hsome]; [reflexivity|].
    destruct secrets; [contradiction | apply andb_false_r]. }
  rewrite Hpass.
  now rewrite (outputToYaml_openable _ _ _ _ (sent w (request c)) Hopen).
Qed.

(** The example over a file of a previous, longer run. *)
Lemma Exec_writes_the_qualifying_records_witness :
  Exec exampleParseRequestURI (serverOf exampleRecords)
    {| Plugin_Config := exampleConfig false false |}
    (worldWith "secrets.yml"
       (Regular "0123456789012345678901234567890123456789"))
  = (written
       (sent (worldWith "secrets.yml"
                (Regular "0123456789012345678901234567890123456789"))
          (request (exampleConfig false false)))
       "secrets.yml"
       ("---" +:+ LF +:+ "secrets:" +:+ LF +:+ "  db: 'p@ss'" +:+ LF
        +:+ "67890123456789"),
     None).
Proof.
  exact (Exec_writes_the_qualifying_records exampleParseRequestURI
           (serverOf exampleRecords)
           {| Plugin_Config := exampleConfig false false |}
           (worldWith "secrets.yml"
              (Regular "0123456789012345678901234567890123456789"))
           exampleRecords eq_refl eq_refl (or_introl eq_refl) eq_refl).
Defined.

(** ** The request *)

Lemma TrimRight_repeated (c0 : ascii) (s : string) :
  (exists m, s = strings.TrimRight s (String c0 "") +:+ repeated c0 m)
  /\ forall t', strings.TrimRight s (String c0 "") <> t' +:+ String c0 "".
Proof.
  induction s as [|c s [[m Hm] Hlast]]; simpl.
  - split; [now exists O | intros [|x t']; discriminate].
  - destruct (strings.TrimRight s (String c0 "")) as [|d kept] eqn:Hkept.
    + destruct (Ascii.eqb_spec c c0) as [->|Hc].
      * split; [exists (S m); simpl; now rewrite Hm | intros [|x t']; discriminate].
      * split; [exists m; now rewrite append_cons, <- Hm|].
        intros [|x [|y t']]; [intros [= Heq]; contradiction | discriminate..].
    + split; [exists m; now rewrite append_cons, <- Hm|].
      intros [|x t']; [discriminate|].
      rewrite append_cons. intros [= _ Heq]. exact (Hlast t' Heq).
Qed.

(** The URL of the request is the endpoint without its trailing
    slashes, followed by the path of the password list: however many
    slashes end the configured endpoint, the URL has exactly one
    before [passwords]. *)
Theorem request_URL_drops_trailing_slashes (c : Config) :
  exists (base : string) (m : nat),
    ApiEndpoint c = base +:+ repeated "/"%char m
    /\ (forall t', base <> t' +:+ "/")
    /\ RequestURL (request c) = base +:+ "/passwords/{PasswordListID}".
Proof.
  destruct (TrimRight_repeated "/"%char (ApiEndpoint c)) as [[m Hm] Hlast].
  exists (strings.TrimRight (ApiEndpoint c) "/"), m.
  split; [exact Hm | split; [exact Hlast | reflexivity]].
Qed.

(** The timeout handed to the client, [time.Duration(seconds) *
    time.Second], is the configured number of seconds in nanoseconds as
    long as that fits an [int64], that is up to 9223372036 seconds in
    absolute value; beyond, the product wraps around, and 9223372037
    seconds already give a negative duration. *)
Theorem request_timeout_in_nanoseconds (c : Config) :
  - 9223372036 <= ConnectionTimeout c <= 9223372036 ->
  Timeout (request c) = ConnectionTimeout c * 1000000000
  /\ MinInt64 <= Timeout (request c) <= MaxInt64
  /\ wrap64 (9223372037 * Second) < 0.
Proof.
  intros Hrange. unfold request, Timeout, wrap64, Second, MinInt64, MaxInt64.
  split; [|split; [|reflexivity]].
  - rewrite Z.mod_small; lia.
  - pose proof (Z.mod_pos_bound (ConnectionTimeout c * 1000000000 + 2 ^ 63)
                  (2 ^ 64) eq_refl). lia.
Qed.

(** The thirty seconds of the example. *)
Lemma request_timeout_in_nanoseconds_witness :
  Timeout (request (exampleConfig false false))
  = ConnectionTimeout (exampleConfig false false) * 1000000000
  /\ MinInt64 <= Timeout (request (exampleConfig false false)) <= MaxInt64
  /\ wrap64 (9223372037 * Second) < 0.
Proof.
  apply (request_timeout_in_nanoseconds (exampleConfig false false)).
  split; discriminate.
Defined.

(** ** The encoding of the values *)

Lemma encode_in_alphabet (v : N) :
  occurs (base64.encode v) base64.encodeStd = true.
Proof.
  unfold base64.encode.
  assert (Hlt : (N.to_nat (N.land v 63) < 64)%nat).
  { change 63%N with (N.ones 6). rewrite N.land_ones.
    pose proof (N.mod_lt v (2 ^ 6)%N ltac:(discriminate)) as Hmod.
    change (2 ^ 6)%N with 64%N in *. lia. }
  set (n := N.to_nat (N.land v 63)) in *. clearbody n.
  do 64 (destruct n as [|n]; [reflexivity|]). lia.
Qed.

Lemma length_bytes (s : string) : length (base64.bytes s) = String.length s.
Proof. induction s as [|c s IH]; simpl; [reflexivity | now rewrite IH]. Qed.

(** Every character of an encoding is a character of the alphabet or
    the padding. *)
Lemma Encode_characters (n : nat) :
  forall src : list N,
    (length src <= n)%nat ->
    forall c : ascii,
      occurs c (base64.Encode src) = true ->
      occurs c base64.encodeStd = true \/ c = base64.StdPadding.
Proof.
  induction n as [|n IH]; intros [|b0 [|b1 [|b2 rest]]] Hlen c;
    cbn [length] in Hlen; try lia;
    cbn [base64.Encode occurs strings.inCutset];
    repeat (match goal with
            | |- context [Ascii.eqb c ?x] =>
                destruct (Ascii.eqb_spec c x) as [->|_]
            end;
            [intros _;
             first [left; apply encode_in_alphabet | right; reflexivity]|]);
    try discriminate.
  apply IH. lia.
Qed.

Lemma Encode_length (n : nat) :
  forall src : list N,
    (length src <= n)%nat ->
    String.length (base64.Encode src) = (4 * ((length src + 2) / 3))%nat.
Proof.
  induction n as [|n IH]; intros [|b0 [|b1 [|b2 rest]]] Hlen;
    cbn [length] in Hlen; try lia; try reflexivity.
  cbn [base64.Encode String.length length]. rewrite IH by lia.
  replace (S (S (S (length rest))) + 2)%nat with (length rest + 2 + 1 * 3)%nat
    by lia.
  rewrite Nat.div_add by discriminate. lia.
Qed.

(** With the encoding enabled, the value written between the quotes is
    made of the characters of the base64 alphabet and of [=] only: it
    holds no quote, no space and no line break, whatever the secret's
    value is; and it has four characters for every three bytes of the
    trimmed value, rounded up. *)
Theorem encoded_value_is_quote_safe (secret : Secret) :
  exists key value : string,
    secretLine true secret = line key value
    /\ (forall c : ascii,
          occurs c value = true ->
          occurs c base64.encodeStd = true \/ c = "="%char)
    /\ occurs "'"%char value = false
    /\ occurs " "%char value = false
    /\ occurs "010"%char value = false
    /\ String.length value
       = (4 * ((String.length (strings.Trim (Value secret) " ") + 2) / 3))%nat.
Proof.
  exists (strings.Trim (Key secret) " "),
         (base64.EncodeToString (strings.Trim (Value secret) " ")).
  set (text := strings.Trim (Value secret) " ").
  assert (Hchars : forall c : ascii,
            occurs c (base64.EncodeToString text) = true ->
            occurs c base64.encodeStd = true \/ c = "="%char)
    by (intros c; now apply (Encode_characters (length (base64.bytes text)))).
  assert (Hnot : forall c : ascii,
            occurs c base64.encodeStd = false -> c <> "="%char ->
            occurs c (base64.EncodeToString text) = false).
  { intros c Hout Hpad.
    destruct (occurs c (base64.EncodeToString text)) eqn:Hin; [|reflexivity].
    destruct (Hchars c Hin) as [Halpha | Heq]; [congruence | contradiction]. }
  split; [reflexivity|]. split; [exact Hchars|].
  split; [now apply Hnot|]. split; [now apply Hnot|]. split; [now apply Hnot|].
  unfold base64.EncodeToString.
  now rewrite (Encode_length (length (base64.bytes text))), length_bytes.
Qed.

(** ** Quoting *)

(** The value is put between the quotes as it is: a quote inside an
    unencoded value ends the quoted text, and what follows it is read
    as further lines.  A single secret whose value runs on with a
    quote, a line break and the text of a second line gives the very
    document of two secrets. *)
Theorem unescaped_quote_splits_the_line (section key value key2 value2 : string) :
  let long := value +:+ "'" +:+ LF +:+ "  " +:+ key2 +:+ ": '" +:+ value2 in
  strings.Trim key " " = key ->
  strings.Trim value " " = value ->
  strings.Trim key2 " " = key2 ->
  strings.Trim value2 " " = value2 ->
  strings.Trim long " " = long ->
  document section false [ {| Key := key; Value := long |} ]
  = document section false
      [ {| Key := key; Value := value |}; {| Key := key2; Value := value2 |} ].
Proof.
  intros long Hkey Hvalue Hkey2 Hvalue2 Hlong.
  unfold document, secretLines, secretLine; simpl Key; simpl Value.
  rewrite Hkey, Hvalue, Hkey2, Hvalue2, Hlong. unfold long, line.
  f_equal. rewrite !append_assoc. reflexivity.
Qed.

(** A value that brings an [admin] line with it. *)
Lemma unescaped_quote_splits_the_line_witness :
  document "secrets" false
    [ {| Key := "db";
         Value := "p@ss" +:+ "'" +:+ LF +:+ "  " +:+ "admin" +:+ ": '" +:+ "yes" |} ]
  = document "secrets" false
      [ {| Key := "db"; Value := "p@ss" |}; {| Key := "admin"; Value := "yes" |} ].
Proof.
  exact (unescaped_quote_splits_the_line "secrets" "db" "p@ss" "admin" "yes"
           eq_refl eq_refl eq_refl eq_refl eq_refl).
Defined.
